(** * Realtime whiteboard: relay server and client sync adapter

    A shallow embedding of

    - [src/shared/types/messages.ts]   (the wire schema),
    - [src/chat_server/src/server.ts]  (the relay),
    - [src/frontend/src/hooks/useWebSocket.ts] (the client transport hook),
    - [src/frontend/src/contexts/WhiteboardContext.tsx] (the local stroke
      store: reducer, [addStroke], [setAllStrokes]),

    followed by the properties of the synchronisation protocol. *)

From Stdlib Require Import String Ascii List ZArith Lia Bool DecimalString Sorted.
Import ListNotations.

Local Open Scope string_scope.
Local Open Scope list_scope.
Set Warnings "-register-all,-notation-for-abbreviation".

(* ================================================================= *)
(** ** JavaScript values and exceptions *)

Module JS.

(** A JavaScript number.  Neither the relay nor the adapter computes with
    numbers (they are only carried inside payloads), so a number is kept as
    the decimal it was written as: [mantissa * 10 ^ exponent]. *)
Record number : Type := mkNumber { mantissa : Z; exponent : Z }.

(** The values [JSON.parse] can build, plus [undefined], which reading an
    absent property yields.  An object is the list of its own properties
    in insertion order. *)
Inductive JsVal : Type :=
| JUndefined
| JNull
| JBool (b : bool)
| JNum (n : number)
| JStr (s : string)
| JArr (elems : list JsVal)
| JObj (props : list (string * JsVal)).

Inductive Exn : Type :=
| TypeError           (* property read on null / undefined *)
| InvalidStateError   (* send on a socket that is still connecting *).

(** Outcome of an expression that may throw. *)
Inductive Completion (A : Type) : Type :=
| Normal (a : A)
| Throw (e : Exn).
Arguments Normal {A} a.
Arguments Throw {A} e.

(** Own property [k] of an object literal; a later binding of the same key
    overrides an earlier one. *)
Fixpoint lookup (k : string) (props : list (string * JsVal)) : option JsVal :=
  match props with
  | [] => None
  | (k', v) :: rest =>
      match lookup k rest with
      | Some v' => Some v'
      | None => if String.eqb k k' then Some v else None
      end
  end.

(** [v.k] for the three keys the sources read ([type], [payload],
    [stroke]): none of them is defined on a prototype, so on an object the
    read is an own-property lookup, on a primitive or an array it yields
    [undefined], and on [null] / [undefined] it throws. *)
Definition get_prop (v : JsVal) (k : string) : Completion JsVal :=
  match v with
  | JUndefined | JNull => Throw TypeError
  | JObj props =>
      match lookup k props with
      | Some x => Normal x
      | None => Normal JUndefined
      end
  | JBool _ | JNum _ | JStr _ | JArr _ => Normal JUndefined
  end.

(** [v === 'lit'] against a string literal. *)
Definition strict_eq_str (v : JsVal) (lit : string) : bool :=
  match v with
  | JStr s => String.eqb s lit
  | _ => false
  end.

End JS.
Export JS.

(* ================================================================= *)
(** ** A reference [JSON.parse] / [JSON.stringify]

    The handlers below take the two library functions as parameters; this
    module supplies an executable instance so that the handlers can be run
    on concrete frames. *)

Module JSON.

Definition dquote : ascii := "034"%char.
Definition backslash : ascii := "092"%char.

Definition is_ws (c : ascii) : bool :=
  match c with
  | " "%char | "009"%char | "010"%char | "013"%char => true
  | _ => false
  end.

Fixpoint skip_ws (s : string) : string :=
  match s with
  | String c rest => if is_ws c then skip_ws rest else s
  | EmptyString => s
  end.

Definition digit_val (c : ascii) : option Z :=
  let n := Z.of_nat (nat_of_ascii c) in
  if (48 <=? n)%Z && (n <=? 57)%Z then Some (n - 48)%Z else None.

Definition hex_val (c : ascii) : option Z :=
  let n := Z.of_nat (nat_of_ascii c) in
  if (48 <=? n)%Z && (n <=? 57)%Z then Some (n - 48)%Z
  else if (65 <=? n)%Z && (n <=? 70)%Z then Some (n - 55)%Z
  else if (97 <=? n)%Z && (n <=? 102)%Z then Some (n - 87)%Z
  else None.

(** Longest run of decimal digits: accumulated value, digit count, rest. *)
Fixpoint digits (acc : Z) (count : Z) (s : string) : Z * Z * string :=
  match s with
  | String c rest =>
      match digit_val c with
      | Some d => digits (10 * acc + d)%Z (count + 1)%Z rest
      | None => (acc, count, s)
      end
  | EmptyString => (acc, count, s)
  end.

(** int := 0 | [1-9][0-9]* *)
Definition int_part (s : string) : option (Z * string) :=
  match s with
  | String "0"%char rest => Some (0%Z, rest)
  | String c _ =>
      match digit_val c with
      | Some _ => let '(v, _, rest) := digits 0 0 s in Some (v, rest)
      | None => None
      end
  | EmptyString => None
  end.

(** frac := ( . [0-9]+ )?  : digits after the point and how many. *)
Definition frac_part (s : string) : option (Z * Z * string) :=
  match s with
  | String "."%char rest =>
      let '(v, n, rest') := digits 0 0 rest in
      if (n =? 0)%Z then None else Some (v, n, rest')
  | _ => Some (0%Z, 0%Z, s)
  end.

(** exp := ( [eE] [+-]? [0-9]+ )? *)
Definition exp_part (s : string) : option (Z * string) :=
  let unsigned (sign : Z) (t : string) :=
    let '(v, n, rest) := digits 0 0 t in
    if (n =? 0)%Z then None else Some ((sign * v)%Z, rest) in
  match s with
  | String "e"%char rest | String "E"%char rest =>
      match rest with
      | String "+"%char t => unsigned 1%Z t
      | String "-"%char t => unsigned (-1)%Z t
      | _ => unsigned 1%Z rest
      end
  | _ => Some (0%Z, s)
  end.

Definition parse_number (s : string) : option (number * string) :=
  let '(sign, s1) :=
    match s with
    | String "-"%char rest => ((-1)%Z, rest)
    | _ => (1%Z, s)
    end in
  match int_part s1 with
  | None => None
  | Some (i, s2) =>
      match frac_part s2 with
      | None => None
      | Some (f, n, s3) =>
          match exp_part s3 with
          | None => None
          | Some (e, s4) =>
              Some (mkNumber (sign * (i * 10 ^ n + f)) (e - n), s4)
          end
      end
  end.

Definition byte (n : Z) : ascii := ascii_of_nat (Z.to_nat n).

(** UTF-8 bytes of a code unit below 0x10000 (a [\uXXXX] escape); a
    surrogate pair written as two escapes is encoded unit by unit. *)
Definition utf8 (n : Z) : string :=
  if (n <? 128)%Z then String (byte n) ""
  else if (n <? 2048)%Z then
    String (byte (192 + n / 64)) (String (byte (128 + n mod 64)) "")
  else
    String (byte (224 + n / 4096))
      (String (byte (128 + (n / 64) mod 64))
         (String (byte (128 + n mod 64)) "")).

(** The characters of a string literal after its opening quote, up to and
    including the closing quote. *)
Fixpoint string_body (s : string) : option (string * string) :=
  let cons (c : string) (r : option (string * string)) :=
    match r with
    | Some (body, rest) => Some ((c ++ body)%string, rest)
    | None => None
    end in
  match s with
  | EmptyString => None
  | String c rest =>
      if Ascii.eqb c dquote then Some ("", rest)
      else if Ascii.eqb c backslash then
        match rest with
        | String "u"%char (String h1 (String h2 (String h3 (String h4 rest')))) =>
            match hex_val h1, hex_val h2, hex_val h3, hex_val h4 with
            | Some a, Some b, Some c', Some d =>
                cons (utf8 (4096 * a + 256 * b + 16 * c' + d)) (string_body rest')
            | _, _, _, _ => None
            end
        | String e rest' =>
            let plain (x : ascii) := cons (String x "") (string_body rest') in
            match e with
            | "034"%char => plain dquote
            | "092"%char => plain backslash
            | "/"%char => plain "/"%char
            | "b"%char => plain "008"%char
            | "f"%char => plain "012"%char
            | "n"%char => plain "010"%char
            | "r"%char => plain "013"%char
            | "t"%char => plain "009"%char
            | _ => None
            end
        | EmptyString => None
        end
      else if (nat_of_ascii c <? 32)%nat then None
      else cons (String c "") (string_body rest)
  end.

(** Defining property [k] on an object under construction: a repeated key
    keeps its first position and takes the later value. *)
Fixpoint define (props : list (string * JsVal)) (k : string) (v : JsVal)
  : list (string * JsVal) :=
  match props with
  | [] => [(k, v)]
  | (k', v') :: rest =>
      if String.eqb k k' then (k', v) :: rest else (k', v') :: define rest k v
  end.

Definition object_of (members : list (string * JsVal)) : JsVal :=
  JObj (fold_left (fun props kv => define props (fst kv) (snd kv)) members []).

Definition literal (word : string) (v : JsVal) (s : string)
  : option (JsVal * string) :=
  if String.prefix word s
  then Some (v, String.substring (String.length word)
                  (String.length s - String.length word) s)
  else None.

(** Recursive descent over the JSON grammar.  Every call either consumes a
    character or is followed by one that does, so [fuel] twice the length
    of the text is never exhausted. *)
Fixpoint parse_value (fuel : nat) (s : string) : option (JsVal * string) :=
  match fuel with
  | O => None
  | S fuel' =>
      match skip_ws s with
      | String "{"%char rest =>
          match skip_ws rest with
          | String "}"%char rest' => Some (JObj [], rest')
          | _ =>
              match parse_members fuel' rest with
              | Some (ps, rest') => Some (object_of ps, rest')
              | None => None
              end
          end
      | String "["%char rest =>
          match skip_ws rest with
          | String "]"%char rest' => Some (JArr [], rest')
          | _ =>
              match parse_elements fuel' rest with
              | Some (vs, rest') => Some (JArr vs, rest')
              | None => None
              end
          end
      | String "034"%char rest =>
          match string_body rest with
          | Some (str, rest') => Some (JStr str, rest')
          | None => None
          end
      | String "t"%char _ as s' => literal "true" (JBool true) s'
      | String "f"%char _ as s' => literal "false" (JBool false) s'
      | String "n"%char _ as s' => literal "null" JNull s'
      | s' =>
          match parse_number s' with
          | Some (n, rest) => Some (JNum n, rest)
          | None => None
          end
      end
  end

with parse_elements (fuel : nat) (s : string)
  : option (list JsVal * string) :=
  match fuel with
  | O => None
  | S fuel' =>
      match parse_value fuel' s with
      | None => None
      | Some (v, rest) =>
          match skip_ws rest with
          | String ","%char rest' =>
              match parse_elements fuel' rest' with
              | Some (vs, rest'') => Some (v :: vs, rest'')
              | None => None
              end
          | String "]"%char rest' => Some ([v], rest')
          | _ => None
          end
      end
  end

with parse_members (fuel : nat) (s : string)
  : option (list (string * JsVal) * string) :=
  match fuel with
  | O => None
  | S fuel' =>
      match skip_ws s with
      | String "034"%char rest =>
          match string_body rest with
          | None => None
          | Some (key, rest1) =>
              match skip_ws rest1 with
              | String ":"%char rest2 =>
                  match parse_value fuel' rest2 with
                  | None => None
                  | Some (v, rest3) =>
                      match skip_ws rest3 with
                      | String ","%char rest4 =>
                          match parse_members fuel' rest4 with
                          | Some (ps, rest5) => Some ((key, v) :: ps, rest5)
                          | None => None
                          end
                      | String "}"%char rest4 => Some ([(key, v)], rest4)
                      | _ => None
                      end
                  end
              | _ => None
              end
          end
      | _ => None
      end
  end.

(** [JSON.parse(text)]: [None] stands for the [SyntaxError] it throws. *)
Definition parse (text : string) : option JsVal :=
  match parse_value (2 * String.length text + 2) text with
  | Some (v, rest) =>
      match skip_ws rest with
      | EmptyString => Some v
      | _ => None
      end
  | None => None
  end.

(** *** Serialisation *)

Definition hex_digit (n : Z) : ascii :=
  if (n <? 10)%Z then byte (48 + n) else byte (87 + n).

Definition escape_char (c : ascii) : string :=
  let n := Z.of_nat (nat_of_ascii c) in
  if Ascii.eqb c dquote then String backslash (String dquote "")
  else if Ascii.eqb c backslash then String backslash (String backslash "")
  else if (n =? 8)%Z then String backslash "b"
  else if (n =? 12)%Z then String backslash "f"
  else if (n =? 10)%Z then String backslash "n"
  else if (n =? 13)%Z then String backslash "r"
  else if (n =? 9)%Z then String backslash "t"
  else if (n <? 32)%Z then
    String backslash
      (String "u" (String "0" (String "0"
         (String (hex_digit (n / 16)) (String (hex_digit (n mod 16)) "")))))
  else String c "".

Fixpoint escape (s : string) : string :=
  match s with
  | EmptyString => ""
  | String c rest => (escape_char c ++ escape rest)%string
  end.

Definition quote (s : string) : string :=
  (String dquote (escape s) ++ String dquote "")%string.

Definition nat_text (n : Z) : string :=
  NilZero.string_of_uint (N.to_uint (Z.to_N n)).

(** [k] decimal places of [r], most significant first, without the
    trailing zeros. *)
Fixpoint places (k : nat) (r : Z) : string :=
  match k with
  | O => ""
  | S k' =>
      if (r =? 0)%Z then ""
      else (nat_text (r / 10 ^ Z.of_nat k') ++ places k' (r mod 10 ^ Z.of_nat k'))%string
  end.

(** Plain positional notation, which is what [JSON.stringify] prints for
    numbers of ordinary magnitude. *)
Definition number_text (n : number) : string :=
  let m := Z.abs (mantissa n) in
  let sign := if (mantissa n <? 0)%Z then "-" else "" in
  if (0 <=? exponent n)%Z then (sign ++ nat_text (m * 10 ^ exponent n))%string
  else
    let unit := (10 ^ (- exponent n))%Z in
    if (m mod unit =? 0)%Z then (sign ++ nat_text (m / unit))%string
    else (sign ++ nat_text (m / unit) ++ "."
            ++ places (Z.to_nat (- exponent n)) (m mod unit))%string.

(** [JSON.stringify(v)].  Inside an array [undefined] is written [null];
    a property whose value is [undefined] is left out.  (At top level
    [JSON.stringify(undefined)] is not a text at all; no source calls it
    on anything but an object literal.) *)
Fixpoint stringify (v : JsVal) : string :=
  match v with
  | JUndefined | JNull => "null"
  | JBool true => "true"
  | JBool false => "false"
  | JNum n => number_text n
  | JStr s => quote s
  | JArr elems =>
      let fix items (l : list JsVal) : string :=
        match l with
        | [] => ""
        | [x] => stringify x
        | x :: rest => (stringify x ++ "," ++ items rest)%string
        end in
      ("[" ++ items elems ++ "]")%string
  | JObj props =>
      let fix members (first : bool) (l : list (string * JsVal)) : string :=
        match l with
        | [] => ""
        | (_, JUndefined) :: rest => members first rest
        | (k, x) :: rest =>
            ((if first then "" else ",") ++ quote k ++ ":" ++ stringify x
               ++ members false rest)%string
        end in
      ("{" ++ members true props ++ "}")%string
  end.

End JSON.

(* ================================================================= *)
(** ** Socket states *)

(** [WebSocket.readyState], the same four constants in the browser and in
    the [ws] library. *)
Inductive ReadyState : Type := CONNECTING | OPEN | CLOSING | CLOSED.

(** [readyState === WebSocket.OPEN] *)
Definition is_open (s : ReadyState) : bool :=
  match s with OPEN => true | _ => false end.

(* ================================================================= *)
(** ** The wire schema: [shared/types/messages.ts] *)

Module Messages.

Record Point : Type := mkPoint { x : number; y : number }.
Record Color : Type := mkColor { r : number; g : number; b : number; a : number }.

Record Stroke : Type := mkStroke {
  id : string;
  points : list Point;
  color : Color;
  thickness : number;
  userId : string
}.

Record User : Type := mkUser { user_userId : string; user_username : string }.

Record ChatPayload : Type := mkChat {
  chat_userId : string;
  chat_username : string;
  message : string
}.

(** The tagged union [Message]; a constructor carries the fields of the
    interface's [payload]. *)
Inductive Message : Type :=
| StrokeAddMessage (stroke : Stroke)
| StrokeRemoveMessage (strokeId : string)
| StrokeMoveMessage (strokeId : string) (dx dy : number)
| BoardClearMessage (userId : string)
| ChatMessage (payload : ChatPayload)
| UserJoinMessage (userId username : string)
| BoardSyncMessage (strokes : list Stroke) (users : list User)
| ChatSyncMessage (chatHistory : list ChatPayload).

(** The eight [type] tags. *)
Definition message_types : list string :=
  [ "stroke:add"; "stroke:remove"; "stroke:move"; "board:clear";
    "chat:message"; "user:join"; "board:sync"; "chat:sync" ].

(** The object literal a typed value stands for. *)
Definition point_obj (p : Point) : JsVal :=
  JObj [("x", JNum (x p)); ("y", JNum (y p))].

Definition color_obj (c : Color) : JsVal :=
  JObj [("r", JNum (r c)); ("g", JNum (g c)); ("b", JNum (b c)); ("a", JNum (a c))].

Definition stroke_obj (s : Stroke) : JsVal :=
  JObj [ ("id", JStr (id s));
         ("points", JArr (map point_obj (points s)));
         ("color", color_obj (color s));
         ("thickness", JNum (thickness s));
         ("userId", JStr (userId s)) ].

Definition user_obj (u : User) : JsVal :=
  JObj [("userId", JStr (user_userId u)); ("username", JStr (user_username u))].

Definition chat_obj (c : ChatPayload) : JsVal :=
  JObj [ ("userId", JStr (chat_userId c));
         ("username", JStr (chat_username c));
         ("message", JStr (message c)) ].

Definition tagged (tag : string) (payload : list (string * JsVal)) : JsVal :=
  JObj [("type", JStr tag); ("payload", JObj payload)].

Definition message_obj (m : Message) : JsVal :=
  match m with
  | StrokeAddMessage s => tagged "stroke:add" [("stroke", stroke_obj s)]
  | StrokeRemoveMessage i => tagged "stroke:remove" [("strokeId", JStr i)]
  | StrokeMoveMessage i dx dy =>
      tagged "stroke:move" [("strokeId", JStr i); ("dx", JNum dx); ("dy", JNum dy)]
  | BoardClearMessage u => tagged "board:clear" [("userId", JStr u)]
  | ChatMessage c =>
      JObj [("type", JStr "chat:message"); ("payload", chat_obj c)]
  | UserJoinMessage u n =>
      tagged "user:join" [("userId", JStr u); ("username", JStr n)]
  | BoardSyncMessage ss us =>
      tagged "board:sync"
        [("strokes", JArr (map stroke_obj ss)); ("users", JArr (map user_obj us))]
  | ChatSyncMessage h =>
      tagged "chat:sync" [("chatHistory", JArr (map chat_obj h))]
  end.

(** [msg.type === tag]; [false] also when reading [type] throws. *)
Definition has_type (msg : JsVal) (tag : string) : bool :=
  match get_prop msg "type" with
  | Normal t => strict_eq_str t tag
  | Throw _ => false
  end.

(** The shape every member of the union shares: an object whose [type] is
    one of the eight tags and whose [payload] is an object. *)
Definition is_Message (msg : JsVal) : bool :=
  match msg with
  | JObj props =>
      match lookup "type" props, lookup "payload" props with
      | Some (JStr t), Some (JObj _) => existsb (String.eqb t) message_types
      | _, _ => false
      end
  | _ => false
  end.

End Messages.

(* ================================================================= *)
(** ** The relay: [chat_server/src/server.ts] *)

Module Relay.

Import Messages.

(** A server-side socket: its identity, its state, and the frames sent on
    it so far, oldest first. *)
Record WebSocket : Type := mkWebSocket {
  wsid : nat;
  readyState : ReadyState;
  sent : list string
}.

(** The module-level variables of [server.ts] and [wss.clients] (a [Set],
    iterated in insertion order). *)
Record State : Type := mkState {
  strokes : list JsVal;
  chatHistory : list JsVal;
  clients : list WebSocket
}.

(** [let strokes = []; let chatHistory = [];] and no client yet. *)
Definition init : State := mkState [] [] [].

(** *** Statements that read and write [State] and may throw *)

Definition M (A : Type) : Type := State -> Completion A * State.

Definition ret {A} (a : A) : M A := fun st => (Normal a, st).

Definition bind {A B} (c : M A) (k : A -> M B) : M B :=
  fun st =>
    match c st with
    | (Normal a, st') => k a st'
    | (Throw e, st') => (Throw e, st')
    end.

Definition lift {A} (c : Completion A) : M A := fun st => (c, st).

Definition gets {A} (f : State -> A) : M A := fun st => (Normal (f st), st).

Notation "x <- c1 ;; c2" := (bind c1 (fun x => c2))
  (at level 61, c1 at next level, right associativity).
Notation "c1 ;; c2" := (bind c1 (fun _ => c2))
  (at level 61, right associativity).

(** [strokes.push(s)] and [chatHistory.push(p)]. *)
Definition push_stroke (s : JsVal) : M unit :=
  fun st => (Normal tt, mkState (strokes st ++ [s]) (chatHistory st) (clients st)).

Definition push_chat (p : JsVal) : M unit :=
  fun st => (Normal tt, mkState (strokes st) (chatHistory st ++ [p]) (clients st)).

(** *** The [ws] library *)

Definition record_frame (ws : WebSocket) (data : string) : WebSocket :=
  mkWebSocket (wsid ws) (readyState ws) (sent ws ++ [data]).

(** [ws.send(data)] without a callback: transmits when the socket is open,
    throws while it is connecting, and otherwise drops the frame. *)
Definition WebSocket_send (ws : WebSocket) (data : string)
  : Completion unit * WebSocket :=
  match readyState ws with
  | OPEN => (Normal tt, record_frame ws data)
  | CONNECTING => (Throw InvalidStateError, ws)
  | CLOSING | CLOSED => (Normal tt, ws)
  end.

(** [ws.send(data)] on the socket object known by [i]. *)
Fixpoint send_on (i : nat) (data : string) (cs : list WebSocket)
  : Completion unit * list WebSocket :=
  match cs with
  | [] => (Normal tt, [])
  | c :: rest =>
      if Nat.eqb (wsid c) i then
        let '(res, c') := WebSocket_send c data in (res, c' :: rest)
      else
        let '(res, rest') := send_on i data rest in (res, c :: rest')
  end.

Definition ws_send (i : nat) (data : string) : M unit :=
  fun st =>
    let '(res, cs) := send_on i data (clients st) in
    (res, mkState (strokes st) (chatHistory st) cs).

(** An identity no socket of [cs] has. *)
Definition fresh (cs : list WebSocket) : nat :=
  S (fold_right (fun c m => Nat.max (wsid c) m) 0 cs).

(** The handshake completes: the server-side socket is open and already a
    member of [wss.clients] when ['connection'] is emitted. *)
Definition accept : M nat :=
  fun st =>
    let i := fresh (clients st) in
    (Normal i,
     mkState (strokes st) (chatHistory st)
       (clients st ++ [mkWebSocket i OPEN []])).

Section Handlers.

Variable JSON_parse : string -> option JsVal.
Variable JSON_stringify : JsVal -> string.

(** [{ type: 'board:sync', payload: { strokes, users: [] } }] *)
Definition syncMsg (strokes : list JsVal) : JsVal :=
  JObj [ ("type", JStr "board:sync");
         ("payload", JObj [("strokes", JArr strokes); ("users", JArr [])]) ].

(** [{ type: 'chat:sync', payload: { chatHistory } }] *)
Definition chatSyncMsg (chatHistory : list JsVal) : JsVal :=
  JObj [ ("type", JStr "chat:sync");
         ("payload", JObj [("chatHistory", JArr chatHistory)]) ].

(** The body of [wss.on('connection', ws => ...)] up to the registration
    of the message listener. *)
Definition on_connection (ws : nat) : M unit :=
  ss <- gets strokes ;;
  ws_send ws (JSON_stringify (syncMsg ss)) ;;
  h <- gets chatHistory ;;
  ws_send ws (JSON_stringify (chatSyncMsg h)).

(** [wss.clients.forEach(client => { if (client.readyState ===
    WebSocket.OPEN) client.send(data) })] *)
Fixpoint forEach_send (data : string) (cs : list WebSocket)
  : Completion unit * list WebSocket :=
  match cs with
  | [] => (Normal tt, [])
  | client :: rest =>
      let '(res, client') :=
        if is_open (readyState client)
        then WebSocket_send client data
        else (Normal tt, client) in
      match res with
      | Throw e => (Throw e, client' :: rest)
      | Normal _ =>
          let '(res', rest') := forEach_send data rest in
          (res', client' :: rest')
      end
  end.

Definition broadcast (data : string) : M unit :=
  fun st =>
    let '(res, cs) := forEach_send data (clients st) in
    (res, mkState (strokes st) (chatHistory st) cs).

(** The listener [ws.on('message', data => ...)].  The [try] covers only
    [JSON.parse]; the property reads after it are not guarded. *)
Definition on_message (data : string) : M unit :=
  match JSON_parse data with
  | None => ret tt
  | Some msg =>
      t <- lift (get_prop msg "type") ;;
      (if strict_eq_str t "stroke:add" then
         p <- lift (get_prop msg "payload") ;;
         s <- lift (get_prop p "stroke") ;;
         push_stroke s
       else ret tt) ;;
      t' <- lift (get_prop msg "type") ;;
      (if strict_eq_str t' "chat:message" then
         p <- lift (get_prop msg "payload") ;;
         push_chat p
       else ret tt) ;;
      broadcast data
  end.

(** *** The event loop *)

(** What can happen to the relay: a handshake completes, a frame arrives
    on the session [from], a session starts closing, a session is gone
    (the library removes it from [wss.clients]). *)
Inductive Event : Type :=
| Connection
| Inbound (from : nat) (data : string)
| Closing (ws : nat)
| Closed (ws : nat).

Definition set_closing (i : nat) (c : WebSocket) : WebSocket :=
  if Nat.eqb (wsid c) i then mkWebSocket (wsid c) CLOSING (sent c) else c.

Definition step (ev : Event) : M unit :=
  match ev with
  | Connection => ws <- accept ;; on_connection ws
  | Inbound _ data => on_message data
  | Closing i =>
      fun st =>
        (Normal tt,
         mkState (strokes st) (chatHistory st) (map (set_closing i) (clients st)))
  | Closed i =>
      fun st =>
        (Normal tt,
         mkState (strokes st) (chatHistory st)
           (filter (fun c => negb (Nat.eqb (wsid c) i)) (clients st)))
  end.

(** Events are handled one at a time, each to completion; an exception
    that escapes a listener is caught nowhere in [server.ts], so the run
    ends there. *)
Fixpoint run (evs : list Event) : M unit :=
  match evs with
  | [] => ret tt
  | ev :: rest => step ev ;; run rest
  end.

(** *** Vocabulary of the properties *)

(** What an open session receives from a broadcast of [data]. *)
Definition deliver (data : string) (c : WebSocket) : WebSocket :=
  if is_open (readyState c) then record_frame c data else c.

(** The stroke a frame adds: [msg.payload.stroke] of a parsed
    [stroke:add]. *)
Definition added_stroke (data : string) : list JsVal :=
  match JSON_parse data with
  | Some msg =>
      if has_type msg "stroke:add" then
        match get_prop msg "payload" with
        | Normal p =>
            match get_prop p "stroke" with
            | Normal s => [s]
            | Throw _ => []
            end
        | Throw _ => []
        end
      else []
  | None => []
  end.

Definition is_stroke_add (data : string) : bool :=
  match JSON_parse data with
  | Some msg => has_type msg "stroke:add"
  | None => false
  end.

Definition frames (evs : list Event) : list string :=
  flat_map (fun ev => match ev with Inbound _ d => [d] | _ => [] end) evs.

(** A frame of the protocol: it parses to a value of the [Message]
    shape. *)
Definition recognized (data : string) : bool :=
  match JSON_parse data with
  | Some msg => is_Message msg
  | None => false
  end.

(** The chat entry a frame adds: [msg.payload] of a parsed
    [chat:message]. *)
Definition added_chat (data : string) : list JsVal :=
  match JSON_parse data with
  | Some msg =>
      if has_type msg "chat:message" then
        match get_prop msg "payload" with
        | Normal p => [p]
        | Throw _ => []
        end
      else []
  | None => []
  end.

(** [null] and [undefined], the two values a property cannot be read
    from. *)
Definition nullish (v : JsVal) : bool :=
  match v with
  | JUndefined | JNull => true
  | _ => false
  end.

(** The parsed values on which one of the listener's unguarded reads
    fails: [msg.type] on a nullish [msg], or [msg.payload.stroke] of a
    [stroke:add] whose [payload] is nullish. *)
Definition unreadable (msg : JsVal) : bool :=
  nullish msg
  || (has_type msg "stroke:add"
      && match get_prop msg "payload" with
         | Normal p => nullish p
         | Throw _ => true
         end).

Definition parses (data : string) : bool :=
  match JSON_parse data with
  | Some _ => true
  | None => false
  end.

(** A frame the listener takes to its end: it is not JSON, or it parses to
    a value all of whose reads succeed. *)
Definition completes (data : string) : bool :=
  match JSON_parse data with
  | Some msg => negb (unreadable msg)
  | None => true
  end.

(** The frames of a run that are relayed: those that parse. *)
Definition relayed_frames (evs : list Event) : list string :=
  filter parses (frames evs).

Definition is_inbound (ev : Event) : bool :=
  match ev with
  | Inbound _ _ => true
  | _ => false
  end.

(** What a session has been sent after the frames [ds] were relayed. *)
Definition deliver_all (ds : list string) (c : WebSocket) : WebSocket :=
  if is_open (readyState c)
  then mkWebSocket (wsid c) (readyState c) (sent c ++ ds)
  else c.

End Handlers.

End Relay.

(* ================================================================= *)
(** ** The client transport hook: [frontend/src/hooks/useWebSocket.ts] *)

Module UseWebSocket.

(** The browser socket held in [ws.current]: its state and the frames it
    has transmitted, oldest first.  It has no queue of its own for frames
    offered while it is not open. *)
Record WebSocket : Type := mkWebSocket {
  readyState : ReadyState;
  sent : list string
}.

(** [useRef<WebSocket | null>(null)] *)
Definition Ref : Type := option WebSocket.

(** [new WebSocket(url)], then the [open] and [close] events. *)
Definition connect : Ref := Some (mkWebSocket CONNECTING []).

Definition opened (ws : Ref) : Ref :=
  option_map (fun s => mkWebSocket OPEN (sent s)) ws.

Definition closed (ws : Ref) : Ref :=
  option_map (fun s => mkWebSocket CLOSED (sent s)) ws.

(** The browser's [WebSocket.send]: an [InvalidStateError] while
    connecting, transmission when open, nothing once closing or closed. *)
Definition WebSocket_send (s : WebSocket) (data : string)
  : Completion unit * WebSocket :=
  match readyState s with
  | CONNECTING => (Throw InvalidStateError, s)
  | OPEN => (Normal tt, mkWebSocket OPEN (sent s ++ [data]))
  | CLOSING | CLOSED => (Normal tt, s)
  end.

Section Hook.

Variable JSON_stringify : JsVal -> string.

(** [send = msg => { if (ws.current && ws.current.readyState ===
    WebSocket.OPEN) ws.current.send(JSON.stringify(msg)) }] *)
Definition send (msg : Messages.Message) (ws_current : Ref)
  : Completion unit * Ref :=
  match ws_current with
  | Some s =>
      if is_open (readyState s) then
        let '(res, s') :=
          WebSocket_send s (JSON_stringify (Messages.message_obj msg)) in
        (res, Some s')
      else (Normal tt, ws_current)
  | None => (Normal tt, ws_current)
  end.

End Hook.

Section Listener.

Variable JSON_parse : string -> option JsVal.

(** The component state the caller's [onMessage] acts on, and
    [onMessage] itself, which may throw. *)
Variable App : Type.
Variable onMessage : JsVal -> App -> Completion unit * App.

(** [ws.current.onmessage = event => { try { const data =
    JSON.parse(event.data); onMessage(data) } catch (err) {
    console.error(...) } }]: the [try] covers the call of [onMessage]
    too. *)
Definition onmessage (event_data : string) (app : App) : Completion unit * App :=
  match JSON_parse event_data with
  | None => (Normal tt, app)
  | Some data =>
      match onMessage data app with
      | (Normal _, app') => (Normal tt, app')
      | (Throw _, app') => (Normal tt, app')
      end
  end.

End Listener.

End UseWebSocket.

(* ================================================================= *)
(** ** The local stroke store: [frontend/src/contexts/WhiteboardContext.tsx] *)

Module Whiteboard.

Inductive ExportFormat : Type := png | svg.

(** The settings object as [initialState] spells it out, and
    [Partial<ToolSettings>]. *)
Record ToolSettings : Type := mkSettings {
  color : Messages.Color;
  thickness : number;
  eraserSize : number
}.

Record PartialToolSettings : Type := mkPartial {
  color_opt : option Messages.Color;
  thickness_opt : option number;
  eraserSize_opt : option number
}.

Definition or_else {A} (o : option A) (d : A) : A :=
  match o with Some v => v | None => d end.

(** [{ ...settings, ...partial }] *)
Definition spread (s : ToolSettings) (p : PartialToolSettings) : ToolSettings :=
  mkSettings (or_else (color_opt p) (color s))
             (or_else (thickness_opt p) (thickness s))
             (or_else (eraserSize_opt p) (eraserSize s)).

Section Store.

(** Declared in [../interfaces/canvas] and [../types/tool]. *)
Variable Stroke : Type.
Variable DrawingTool : Type.
Variable tool_id : DrawingTool -> string.
(** [{} as DrawingTool] *)
Variable no_tool : DrawingTool.

Record WhiteboardState : Type := mkWhiteboard {
  activeTool : DrawingTool;
  settings : ToolSettings;
  allTools : list DrawingTool;
  currentStroke : option Stroke;
  strokes : list Stroke;
  selectedStrokes : list nat;
  previewShape : option Stroke;
  isDragging : bool;
  dragStart : option Messages.Point;
  exportFormat : ExportFormat;
  isWasmLoaded : bool;
  wasmError : option string;
  strokeUpdateTrigger : Z
}.

Inductive WhiteboardAction : Type :=
| SET_ACTIVE_TOOL (payload : string)
| UPDATE_SETTINGS (payload : PartialToolSettings)
| SET_CURRENT_STROKE (payload : option Stroke)
| SET_STROKES (payload : list Stroke)
| SET_SELECTED_STROKES (payload : list nat)
| SET_PREVIEW_SHAPE (payload : option Stroke)
| SET_DRAGGING (isDragging : bool) (dragStart : option (option Messages.Point))
| SET_EXPORT_FORMAT (payload : ExportFormat)
| SET_WASM_LOADED (payload : bool)
| SET_WASM_ERROR (payload : option string)
| TRIGGER_STROKE_UPDATE
| CLEAR_CANVAS
| SET_ALL_TOOLS (payload : list DrawingTool).

Definition initialState : WhiteboardState :=
  {| activeTool := no_tool;
     settings :=
       mkSettings
         (Messages.mkColor (mkNumber 0 0) (mkNumber 0 0) (mkNumber 0 0) (mkNumber 1 0))
         (mkNumber 2 0) (mkNumber 10 0);
     allTools := [];
     currentStroke := None;
     strokes := [];
     selectedStrokes := [];
     previewShape := None;
     isDragging := false;
     dragStart := None;
     exportFormat := png;
     isWasmLoaded := false;
     wasmError := None;
     strokeUpdateTrigger := 0 |}.

Definition whiteboardReducer (state : WhiteboardState) (action : WhiteboardAction)
  : WhiteboardState :=
  let '(mkWhiteboard tool sets tools cur strks sel prev drag start fmt loaded err trig) :=
    state in
  match action with
  | SET_ACTIVE_TOOL payload =>
      let toolToUse :=
        match find (fun t => String.eqb (tool_id t) payload) tools with
        | Some foundTool => foundTool
        | None => match tools with t0 :: _ => t0 | [] => tool end
        end in
      mkWhiteboard toolToUse sets tools cur strks sel prev drag start fmt loaded err trig
  | UPDATE_SETTINGS payload =>
      mkWhiteboard tool (spread sets payload) tools cur strks sel prev drag start fmt loaded err trig
  | SET_CURRENT_STROKE payload =>
      mkWhiteboard tool sets tools payload strks sel prev drag start fmt loaded err trig
  | SET_STROKES payload =>
      mkWhiteboard tool sets tools cur payload sel prev drag start fmt loaded err trig
  | SET_SELECTED_STROKES payload =>
      mkWhiteboard tool sets tools cur strks payload prev drag start fmt loaded err trig
  | SET_PREVIEW_SHAPE payload =>
      mkWhiteboard tool sets tools cur strks sel payload drag start fmt loaded err trig
  | SET_DRAGGING d s =>
      mkWhiteboard tool sets tools cur strks sel prev d (or_else s start) fmt loaded err trig
  | SET_EXPORT_FORMAT payload =>
      mkWhiteboard tool sets tools cur strks sel prev drag start payload loaded err trig
  | SET_WASM_LOADED payload =>
      mkWhiteboard tool sets tools cur strks sel prev drag start fmt payload err trig
  | SET_WASM_ERROR payload =>
      mkWhiteboard tool sets tools cur strks sel prev drag start fmt loaded payload trig
  | TRIGGER_STROKE_UPDATE =>
      mkWhiteboard tool sets tools cur strks sel prev drag start fmt loaded err (trig + 1)
  | CLEAR_CANVAS =>
      mkWhiteboard tool sets tools None [] [] None drag start fmt loaded err trig
  | SET_ALL_TOOLS payload =>
      mkWhiteboard tool sets payload cur strks sel prev drag start fmt loaded err trig
  end.

(** [dispatch(action)]: the state of the next render. *)
Definition dispatch (action : WhiteboardAction) (current : WhiteboardState)
  : WhiteboardState :=
  whiteboardReducer current action.

(** [addStroke = useCallback(stroke => dispatch({ type: 'SET_STROKES',
    payload: [...state.strokes, stroke] }), [state.strokes])].  The
    callback reads [state.strokes] of the render that created it
    ([rendered]); the dispatch acts on the state current at the call. *)
Definition addStroke (rendered : WhiteboardState) (stroke : Stroke)
  : WhiteboardState -> WhiteboardState :=
  dispatch (SET_STROKES (strokes rendered ++ [stroke])).

(** [setAllStrokes = useCallback(strokes => dispatch({ type:
    'SET_STROKES', payload: strokes }), [])] *)
Definition setAllStrokes (snapshot : list Stroke)
  : WhiteboardState -> WhiteboardState :=
  dispatch (SET_STROKES snapshot).

(** A [stroke:add] delivery handled after the previous one has been
    rendered: the callback in use is the one of the current state. *)
Definition apply_stroke_add (stroke : Stroke) (st : WhiteboardState)
  : WhiteboardState :=
  addStroke st stroke st.

End Store.

Arguments mkWhiteboard {Stroke DrawingTool}.
Arguments activeTool {Stroke DrawingTool}.
Arguments settings {Stroke DrawingTool}.
Arguments allTools {Stroke DrawingTool}.
Arguments currentStroke {Stroke DrawingTool}.
Arguments strokes {Stroke DrawingTool}.
Arguments selectedStrokes {Stroke DrawingTool}.
Arguments previewShape {Stroke DrawingTool}.
Arguments isDragging {Stroke DrawingTool}.
Arguments dragStart {Stroke DrawingTool}.
Arguments exportFormat {Stroke DrawingTool}.
Arguments isWasmLoaded {Stroke DrawingTool}.
Arguments wasmError {Stroke DrawingTool}.
Arguments strokeUpdateTrigger {Stroke DrawingTool}.
Arguments SET_STROKES {Stroke DrawingTool}.
Arguments dispatch {Stroke DrawingTool}.
Arguments addStroke {Stroke DrawingTool}.
Arguments setAllStrokes {Stroke DrawingTool}.
Arguments apply_stroke_add {Stroke DrawingTool}.

End Whiteboard.

(* ================================================================= *)
(** ** The store and the drawing engine: [WhiteboardContext.tsx], the
    callbacks that read or drive [wasmEngine] *)

Module Bridge.

(** [ToBoolean]: what [!v] and [v || d] test. *)
Definition truthy (v : JsVal) : bool :=
  match v with
  | JUndefined | JNull => false
  | JBool b => b
  | JNum n => negb (mantissa n =? 0)%Z
  | JStr s => negb (String.eqb s "")
  | JArr _ | JObj _ => true
  end.

(** [v || d] *)
Definition or_default (v d : JsVal) : JsVal := if truthy v then v else d.

(** The object literal [wasmStrokeToReact] returns. *)
Record Stroke : Type := mkStroke {
  points : JsVal;
  color : string;
  thickness : JsVal
}.

Definition and_then {A B} (c : Completion A) (k : A -> Completion B)
  : Completion B :=
  match c with
  | Normal a => k a
  | Throw e => Throw e
  end.

Notation "x <- c1 ;; c2" := (and_then c1 (fun x => c2))
  (at level 61, c1 at next level, right associativity).

(** [array.map(f)] for an [f] that may throw. *)
Fixpoint map_completion {A B} (f : A -> Completion B) (l : list A)
  : Completion (list B) :=
  match l with
  | [] => Normal []
  | x :: rest =>
      y <- f x ;;
      ys <- map_completion f rest ;;
      Normal (y :: ys)
  end.

(** [Array.from(set).sort((a, b) => b - a)]: the indices from the highest
    down. *)
Fixpoint insert_desc (n : nat) (l : list nat) : list nat :=
  match l with
  | [] => [n]
  | m :: rest => if Nat.leb m n then n :: l else m :: insert_desc n rest
  end.

Definition sort_desc (l : list nat) : list nat := fold_right insert_desc [] l.

(** A list without its element at position [i] (unchanged when there is
    none), and a list without its elements at the positions in [sel],
    positions counted from [k]. *)
Fixpoint remove_at {A} (i : nat) (l : list A) : list A :=
  match l, i with
  | [], _ => []
  | _ :: rest, O => rest
  | x :: rest, S i' => x :: remove_at i' rest
  end.

Fixpoint keep_from {A} (k : nat) (sel : list nat) (l : list A) : list A :=
  match l with
  | [] => []
  | x :: rest =>
      if existsb (Nat.eqb k) sel
      then keep_from (S k) sel rest
      else x :: keep_from (S k) sel rest
  end.

Section Conversion.

(** The text of [Math.round(x * 255)] inside the template literal. *)
Variable round255 : JsVal -> string.

(** [Math.round((v || 0) * 255)] *)
Definition channel (v : JsVal) : string :=
  round255 (or_default v (JNum (mkNumber 0 0))).

(** The template literal [rgb(r, g, b)] over [wasmStroke.color]. *)
Definition rgb (wasmStroke : JsVal) : Completion string :=
  cr <- get_prop wasmStroke "color" ;;
  r <- get_prop cr "r" ;;
  cg <- get_prop wasmStroke "color" ;;
  g <- get_prop cg "g" ;;
  cb <- get_prop wasmStroke "color" ;;
  b <- get_prop cb "b" ;;
  Normal ("rgb(" ++ channel r ++ ", " ++ channel g ++ ", " ++ channel b ++ ")")%string.

Definition wasmStrokeToReact (wasmStroke : JsVal) : Completion Stroke :=
  if negb (truthy wasmStroke) then
    Normal (mkStroke (JArr []) "rgb(0, 0, 0)" (JNum (mkNumber 1 0)))
  else
    c <- get_prop wasmStroke "color" ;;
    if negb (truthy c) then
      p <- get_prop wasmStroke "points" ;;
      t <- get_prop wasmStroke "thickness" ;;
      Normal (mkStroke (or_default p (JArr [])) "rgb(0, 0, 0)"
                (or_default t (JNum (mkNumber 1 0))))
    else
      p <- get_prop wasmStroke "points" ;;
      col <- rgb wasmStroke ;;
      t <- get_prop wasmStroke "thickness" ;;
      Normal (mkStroke (or_default p (JArr [])) col
                (or_default t (JNum (mkNumber 1 0)))).

Section Engine.

(** The drawing engine [useWASM] hands out: its state, and the two of its
    methods used below, either of which may throw. *)
Variable Engine : Type.
Variable getStrokes : Engine -> Completion (list JsVal).
Variable removeStroke : nat -> Engine -> Completion unit * Engine.

Variable DrawingTool : Type.
Variable tool_id : DrawingTool -> string.

Definition WhiteboardState : Type := Whiteboard.WhiteboardState Stroke DrawingTool.

(** [syncStrokesFromWasm]: nothing unless the engine is loaded; a failure
    inside the [try] leaves the state alone. *)
Definition syncStrokesFromWasm (isLoaded : bool) (wasmEngine : Engine)
    (state : WhiteboardState) : WhiteboardState :=
  if negb isLoaded then state
  else
    match getStrokes wasmEngine with
    | Throw _ => state
    | Normal wasmStrokes =>
        match map_completion wasmStrokeToReact wasmStrokes with
        | Throw _ => state
        | Normal reactStrokes =>
            Whiteboard.dispatch tool_id (Whiteboard.SET_STROKES reactStrokes) state
        end
    end.

(** [triggerStrokeUpdate] *)
Definition triggerStrokeUpdate (state : WhiteboardState) : WhiteboardState :=
  Whiteboard.dispatch tool_id (Whiteboard.TRIGGER_STROKE_UPDATE Stroke DrawingTool) state.

(** The effect on [state.strokeUpdateTrigger]: [if (state.strokeUpdateTrigger
    > 0) syncStrokesFromWasm()]. *)
Definition stroke_update_effect (isLoaded : bool) (wasmEngine : Engine)
    (state : WhiteboardState) : WhiteboardState :=
  if (0 <? Whiteboard.strokeUpdateTrigger state)%Z
  then syncStrokesFromWasm isLoaded wasmEngine state
  else state.

(** [indices.forEach(index => wasmEngine.removeStroke(index))] *)
Fixpoint forEach_remove (indices : list nat) (wasmEngine : Engine)
  : Completion unit * Engine :=
  match indices with
  | [] => (Normal tt, wasmEngine)
  | index :: rest =>
      match removeStroke index wasmEngine with
      | (Normal _, engine') => forEach_remove rest engine'
      | (Throw e, engine') => (Throw e, engine')
      end
  end.

(** [deleteSelectedStrokes]; its calls of the engine are in no [try]. *)
Definition deleteSelectedStrokes (isLoaded : bool) (wasmEngine : Engine)
    (state : WhiteboardState) : Completion unit * (Engine * WhiteboardState) :=
  if negb isLoaded then (Normal tt, (wasmEngine, state))
  else
    let indicesToRemove := sort_desc (Whiteboard.selectedStrokes state) in
    match forEach_remove indicesToRemove wasmEngine with
    | (Throw e, engine') => (Throw e, (engine', state))
    | (Normal _, engine') =>
        (Normal tt,
         (engine',
          Whiteboard.dispatch tool_id (Whiteboard.TRIGGER_STROKE_UPDATE Stroke DrawingTool)
            (Whiteboard.dispatch tool_id (Whiteboard.SET_SELECTED_STROKES Stroke DrawingTool []) state)))
    end.

End Engine.

End Conversion.

End Bridge.

(* ================================================================= *)
(** ** Concrete frames and states *)

Module Examples.

Import Messages.

Definition zero : number := mkNumber 0 0.
Definition one : number := mkNumber 1 0.

(** [{id:"a", points:[{x:0,y:0}], color:{r:0,g:0,b:0,a:1}, thickness:2,
    userId:"u1"}] *)
Definition stroke_a : Stroke :=
  mkStroke "a" [mkPoint zero zero] (mkColor zero zero zero one) (mkNumber 2 0) "u1".

Definition stroke_b : Stroke :=
  mkStroke "b" [mkPoint one zero; mkPoint one one] (mkColor one zero zero one)
    (mkNumber 35 (-1)) "u2".

Definition frame_of (m : Message) : string := JSON.stringify (message_obj m).

Definition add_a : string := frame_of (StrokeAddMessage stroke_a).
Definition add_b : string := frame_of (StrokeAddMessage stroke_b).
Definition remove_a : string := frame_of (StrokeRemoveMessage "a").
Definition move_a : string := frame_of (StrokeMoveMessage "a" one (mkNumber (-5) (-1))).
Definition clear_u1 : string := frame_of (BoardClearMessage "u1").
Definition join_u1 : string := frame_of (UserJoinMessage "u1" "A").
(** [chat:message {userId:"u1", username:"A", message:"hi"}] *)
Definition chat_hi : string := frame_of (ChatMessage (mkChat "u1" "A" "hi")).

(** A frame that is not JSON. *)
Definition malformed : string := "{not json".

(** A JSON object whose [type] is none of the eight tags. *)
Definition cursor_move : string :=
  JSON.stringify (JObj [("type", JStr "cursor:move"); ("payload", JObj [("x", JNum one)])]).

Definition step := Relay.step JSON.parse JSON.stringify.
Definition run := Relay.run JSON.parse JSON.stringify.

(** The relay after two clients have connected to an empty board. *)
Definition two_sessions : Relay.State :=
  snd (run [Relay.Connection; Relay.Connection] Relay.init).

(** ... and after one of them has started to close. *)
Definition one_closing : Relay.State :=
  snd (run [Relay.Connection; Relay.Connection; Relay.Closing 1] Relay.init).

(** The value [cursor_move] parses to. *)
Definition cursor_move_obj : JsVal :=
  JObj [("type", JStr "cursor:move"); ("payload", JObj [("x", JNum one)])].

(** A [stroke:add] without a [payload], and the JSON text [null]. *)
Definition add_without_payload : string :=
  JSON.stringify (JObj [("type", JStr "stroke:add")]).

Definition json_null : string := JSON.stringify JNull.

(** A run with two [stroke:add] among other events. *)
Definition session_log : list Relay.Event :=
  [ Relay.Connection; Relay.Inbound 1 add_a; Relay.Inbound 1 remove_a;
    Relay.Connection; Relay.Inbound 2 add_b; Relay.Inbound 2 chat_hi ].

(** The client store before anything was drawn; tools are known by their
    identifier here. *)
Definition board0 : Whiteboard.WhiteboardState Stroke string :=
  Whiteboard.initialState Stroke string "".

Definition send := UseWebSocket.send JSON.stringify.

(** A run of inbound frames only, one of them not JSON. *)
Definition inbound_log : list Relay.Event :=
  [ Relay.Inbound 1 add_a; Relay.Inbound 2 malformed; Relay.Inbound 2 chat_hi;
    Relay.Inbound 1 remove_a ].

(** A [stroke:add] whose payload has no [stroke], a [chat:message] without
    a [payload], and a [board:sync] as a client could send it. *)
Definition add_without_stroke : string :=
  JSON.stringify (JObj [("type", JStr "stroke:add"); ("payload", JObj [])]).

Definition chat_without_payload : string :=
  JSON.stringify (JObj [("type", JStr "chat:message")]).

Definition forged_sync : string := frame_of (BoardSyncMessage [] []).

(** Tools known by their identifier, and a store that has two of them. *)
Definition board_with_tools : Whiteboard.WhiteboardState Stroke string :=
  Whiteboard.whiteboardReducer Stroke string (fun tool => tool) board0
    (Whiteboard.SET_ALL_TOOLS Stroke string ["stroke"; "eraser"]).

(** An engine that is the list of its strokes; removing a position that
    does not exist throws. *)
Definition list_getStrokes (engine : list JsVal) : Completion (list JsVal) :=
  Normal engine.

Definition list_removeStroke (index : nat) (engine : list JsVal)
  : Completion unit * list JsVal :=
  if Nat.ltb index (length engine)
  then (Normal tt, Bridge.remove_at index engine)
  else (Throw TypeError, engine).

(** [Math.round(x * 255)] on a decimal, computed exactly. *)
Definition round255 (v : JsVal) : string :=
  match v with
  | JNum n =>
      let scaled := (2 * 255 * mantissa n)%Z in
      let rounded :=
        if (0 <=? exponent n)%Z
        then (255 * mantissa n * 10 ^ exponent n)%Z
        else ((scaled + 10 ^ (- exponent n)) / (2 * 10 ^ (- exponent n)))%Z in
      NilZero.string_of_int (Z.to_int rounded)
  | _ => "NaN"
  end.

(** Three strokes as the engine holds them, the last without a colour and
    with thickness [0]. *)
Definition engine_strokes : list JsVal :=
  [ stroke_obj stroke_a; stroke_obj stroke_b;
    JObj [("points", JArr []); ("thickness", JNum zero)] ].

(** The store the engine-facing callbacks act on, with the strokes at
    positions 0 and 2 selected (chosen in that order). *)
Definition bridge_board : Whiteboard.WhiteboardState Bridge.Stroke string :=
  Whiteboard.whiteboardReducer Bridge.Stroke string (fun tool => tool)
    (Whiteboard.initialState Bridge.Stroke string "")
    (Whiteboard.SET_SELECTED_STROKES Bridge.Stroke string [0; 2]).

End Examples.

(* ================================================================= *)
(** * Properties of the relay *)

Section RelayProperties.

Import Messages Relay.

Variable JSON_parse : string -> option JsVal.
Variable JSON_stringify : JsVal -> string.

Local Notation on_message := (Relay.on_message JSON_parse).
Local Notation step := (Relay.step JSON_parse JSON_stringify).
Local Notation run := (Relay.run JSON_parse JSON_stringify).
Local Notation added_stroke := (Relay.added_stroke JSON_parse).
Local Notation is_stroke_add := (Relay.is_stroke_add JSON_parse).
Local Notation recognized := (Relay.recognized JSON_parse).

(** The state after a broadcast of [data] that found the board as
    [ss] and the chat as [h]. *)
Local Notation relayed data ss h st :=
  (mkState ss h (map (deliver data) (clients st))).

(** ** The fan-out loop *)

(** The guard of the loop keeps [send] away from every socket on which it
    could throw: the loop always completes, and each socket ends as
    [deliver] describes. *)
Lemma forEach_send_deliver (data : string) (cs : list WebSocket) :
  forEach_send data cs = (Normal tt, map (deliver data) cs).
Proof.
  induction cs as [| c rest IH]; simpl; [reflexivity |].
  unfold deliver at 1, WebSocket_send.
  destruct (readyState c) eqn:E; simpl; rewrite IH; reflexivity.
Qed.

Lemma broadcast_relays (data : string) (st : State) :
  broadcast data st = (Normal tt, relayed data (strokes st) (chatHistory st) st).
Proof.
  unfold broadcast. rewrite forEach_send_deliver. reflexivity.
Qed.

(** ** The message listener, path by path *)

Ltac run_listener :=
  unfold Relay.on_message, bind, lift, ret, push_stroke, push_chat;
  repeat match goal with
    | H : ?x = _ |- context [?x] => rewrite H
    end;
  simpl; rewrite ?broadcast_relays; simpl.

Lemma on_message_unparsed data st :
  JSON_parse data = None ->
  on_message data st = (Normal tt, st).
Proof. intros H. run_listener. reflexivity. Qed.

Lemma on_message_no_type data msg e st :
  JSON_parse data = Some msg ->
  get_prop msg "type" = Throw e ->
  on_message data st = (Throw e, st).
Proof. intros H1 H2. run_listener. reflexivity. Qed.

Lemma on_message_add data msg t p s st :
  JSON_parse data = Some msg ->
  get_prop msg "type" = Normal t ->
  strict_eq_str t "stroke:add" = true ->
  get_prop msg "payload" = Normal p ->
  get_prop p "stroke" = Normal s ->
  on_message data st
  = (Normal tt, relayed data (strokes st ++ [s]) (chatHistory st) st).
Proof.
  intros H1 H2 H3 H4 H5.
  assert (strict_eq_str t "chat:message" = false) as H6.
  { destruct t; simpl in *; try discriminate.
    apply String.eqb_eq in H3. subst. reflexivity. }
  run_listener. reflexivity.
Qed.

Lemma on_message_add_no_payload data msg t e st :
  JSON_parse data = Some msg ->
  get_prop msg "type" = Normal t ->
  strict_eq_str t "stroke:add" = true ->
  get_prop msg "payload" = Throw e ->
  on_message data st = (Throw e, st).
Proof. intros H1 H2 H3 H4. run_listener. reflexivity. Qed.

Lemma on_message_add_bad_payload data msg t p e st :
  JSON_parse data = Some msg ->
  get_prop msg "type" = Normal t ->
  strict_eq_str t "stroke:add" = true ->
  get_prop msg "payload" = Normal p ->
  get_prop p "stroke" = Throw e ->
  on_message data st = (Throw e, st).
Proof. intros H1 H2 H3 H4 H5. run_listener. reflexivity. Qed.

Lemma on_message_chat data msg t p st :
  JSON_parse data = Some msg ->
  get_prop msg "type" = Normal t ->
  strict_eq_str t "chat:message" = true ->
  get_prop msg "payload" = Normal p ->
  on_message data st
  = (Normal tt, relayed data (strokes st) (chatHistory st ++ [p]) st).
Proof.
  intros H1 H2 H3 H4.
  assert (strict_eq_str t "stroke:add" = false) as H5.
  { destruct t; simpl in *; try discriminate.
    apply String.eqb_eq in H3. subst. reflexivity. }
  run_listener. reflexivity.
Qed.

Lemma on_message_other data msg t st :
  JSON_parse data = Some msg ->
  get_prop msg "type" = Normal t ->
  strict_eq_str t "stroke:add" = false ->
  strict_eq_str t "chat:message" = false ->
  on_message data st
  = (Normal tt, relayed data (strokes st) (chatHistory st) st).
Proof. intros H1 H2 H3 H4. run_listener. reflexivity. Qed.

(** Reading [payload] of a value whose [type] could be read never
    throws: the value is not [null] or [undefined]. *)
Lemma payload_readable msg t :
  get_prop msg "type" = Normal t ->
  exists p, get_prop msg "payload" = Normal p.
Proof.
  destruct msg; simpl; try discriminate; intros _; eauto.
  destruct (lookup "payload" props); eauto.
Qed.

Lemma has_type_inv msg tag :
  has_type msg tag = true ->
  exists t, get_prop msg "type" = Normal t /\ strict_eq_str t tag = true.
Proof.
  unfold has_type. destruct (get_prop msg "type"); [eauto | discriminate].
Qed.

Lemma strict_eq_str_inv v lit :
  strict_eq_str v lit = true -> v = JStr lit.
Proof.
  destruct v; simpl; try discriminate.
  intros H. apply String.eqb_eq in H. congruence.
Qed.

(** What the listener does to the board, whatever the frame: it appends
    [added_stroke data], which is empty unless the frame is a [stroke:add]
    whose [payload.stroke] can be read. *)
Lemma on_message_strokes data st :
  strokes (snd (on_message data st)) = strokes st ++ added_stroke data.
Proof.
  unfold Relay.added_stroke, has_type.
  destruct (JSON_parse data) as [msg |] eqn:Hp.
  2: { rewrite on_message_unparsed, app_nil_r by assumption. reflexivity. }
  destruct (get_prop msg "type") as [t | e] eqn:Ht.
  2: { rewrite (on_message_no_type _ _ _ _ Hp Ht), app_nil_r. reflexivity. }
  destruct (strict_eq_str t "stroke:add") eqn:Ha.
  - destruct (get_prop msg "payload") as [p | e] eqn:Hq.
    + destruct (get_prop p "stroke") as [s | e] eqn:Hs.
      * rewrite (on_message_add _ _ _ _ _ _ Hp Ht Ha Hq Hs). reflexivity.
      * rewrite (on_message_add_bad_payload _ _ _ _ _ _ Hp Ht Ha Hq Hs), app_nil_r.
        reflexivity.
    + rewrite (on_message_add_no_payload _ _ _ _ _ Hp Ht Ha Hq), app_nil_r.
      reflexivity.
  - rewrite app_nil_r.
    destruct (strict_eq_str t "chat:message") eqn:Hc.
    + destruct (payload_readable _ _ Ht) as [p Hq].
      rewrite (on_message_chat _ _ _ _ _ Hp Ht Hc Hq). reflexivity.
    + rewrite (on_message_other _ _ _ _ Hp Ht Ha Hc). reflexivity.
Qed.

(** A frame of the protocol is handled without an exception, and relayed. *)
Lemma on_message_recognized data st :
  recognized data = true ->
  exists ss h,
    on_message data st = (Normal tt, relayed data ss h st).
Proof.
  unfold Relay.recognized, is_Message. intros H.
  destruct (JSON_parse data) as [msg |] eqn:Hp; [| discriminate].
  destruct msg as [| | | | | | props]; try discriminate.
  destruct (lookup "type" props) as [t |] eqn:Ht; [| discriminate].
  destruct t as [| | | | tag | |]; try discriminate.
  destruct (lookup "payload" props) as [p |] eqn:Hq; [| discriminate].
  destruct p as [| | | | | | fields]; try discriminate.
  assert (get_prop (JObj props) "type" = Normal (JStr tag)) as Gt
      by (simpl; rewrite Ht; reflexivity).
  assert (get_prop (JObj props) "payload" = Normal (JObj fields)) as Gq
      by (simpl; rewrite Hq; reflexivity).
  destruct (strict_eq_str (JStr tag) "stroke:add") eqn:Ha.
  - destruct (get_prop (JObj fields) "stroke") as [s | e] eqn:Hs.
    + rewrite (on_message_add _ _ _ _ _ _ Hp Gt Ha Gq Hs). eauto.
    + simpl in Hs. destruct (lookup "stroke" fields); discriminate.
  - destruct (strict_eq_str (JStr tag) "chat:message") eqn:Hc.
    + rewrite (on_message_chat _ _ _ _ _ Hp Gt Hc Gq). eauto.
    + rewrite (on_message_other _ _ _ _ Hp Gt Ha Hc). eauto.
Qed.

(** A frame of the protocol adds one stroke if it is a [stroke:add] and
    none otherwise. *)
Lemma added_stroke_count data :
  recognized data = true ->
  length (added_stroke data) = if is_stroke_add data then 1 else 0.
Proof.
  unfold Relay.recognized, Relay.added_stroke, Relay.is_stroke_add, is_Message.
  destruct (JSON_parse data) as [msg |]; [| discriminate].
  destruct (has_type msg "stroke:add"); [| reflexivity].
  destruct msg as [| | | | | | props]; try discriminate.
  destruct (lookup "type" props) as [[| | | | tag | |] |]; try discriminate.
  simpl. destruct (lookup "payload" props) as [[| | | | | | fields] |];
    try discriminate.
  intros _. simpl. destruct (lookup "stroke" fields); reflexivity.
Qed.

(** Every value of the typed union has the shape [recognized] asks for. *)
Lemma message_obj_is_Message (m : Message) : is_Message (message_obj m) = true.
Proof. destruct m; reflexivity. Qed.

(** ** Connections *)

Lemma fresh_above (cs : list WebSocket) :
  Forall (fun c => wsid c < fresh cs) cs.
Proof.
  unfold fresh. induction cs as [| c rest IH]; constructor; simpl.
  - lia.
  - eapply Forall_impl; [| exact IH]. simpl. intros c'. lia.
Qed.

Lemma send_on_last i data cs frames_sent :
  Forall (fun c => wsid c < i) cs ->
  send_on i data (cs ++ [mkWebSocket i OPEN frames_sent])
  = (Normal tt, cs ++ [mkWebSocket i OPEN (frames_sent ++ [data])]).
Proof.
  induction 1 as [| c rest Hc _ IH]; simpl.
  - rewrite Nat.eqb_refl. reflexivity.
  - replace (Nat.eqb (wsid c) i) with false
      by (symmetry; apply Nat.eqb_neq; lia).
    rewrite IH. reflexivity.
Qed.

Lemma connection_step st :
  step Connection st
  = (Normal tt,
     mkState (strokes st) (chatHistory st)
       (clients st ++
          [mkWebSocket (fresh (clients st)) OPEN
             [ JSON_stringify (syncMsg (strokes st));
               JSON_stringify (chatSyncMsg (chatHistory st)) ]])).
Proof.
  unfold Relay.step, Relay.on_connection, accept, bind, gets, ws_send. simpl.
  rewrite (send_on_last _ _ _ [] (fresh_above (clients st))). simpl.
  rewrite (send_on_last _ _ _ _ (fresh_above (clients st))). reflexivity.
Qed.

(** ** One event, and runs of events *)

Lemma step_strokes ev st :
  strokes (snd (step ev st)) = strokes st ++ flat_map added_stroke (frames [ev]).
Proof.
  destruct ev as [| from data | i | i]; simpl.
  - fold (step Connection st). rewrite connection_step, app_nil_r. reflexivity.
  - rewrite app_nil_r. apply on_message_strokes.
  - rewrite app_nil_r. reflexivity.
  - rewrite app_nil_r. reflexivity.
Qed.

Lemma run_cons ev rest st :
  run (ev :: rest) st
  = match step ev st with
    | (Normal _, st') => run rest st'
    | (Throw e, st') => (Throw e, st')
    end.
Proof. reflexivity. Qed.

Lemma frames_cons ev rest : frames (ev :: rest) = frames [ev] ++ frames rest.
Proof. unfold frames. simpl. rewrite app_nil_r. reflexivity. Qed.

(** A run of frames of the protocol (and of connection events) never
    throws, and the board grows by the strokes the frames add. *)
Lemma run_recognized evs : forall st,
  Forall (fun d => recognized d = true) (frames evs) ->
  exists st',
    run evs st = (Normal tt, st') /\
    strokes st' = strokes st ++ flat_map added_stroke (frames evs).
Proof.
  induction evs as [| ev rest IH]; intros st Hall.
  - exists st. simpl. rewrite app_nil_r. split; reflexivity.
  - rewrite frames_cons in Hall. apply Forall_app in Hall as [Hev Hrest].
    assert (exists st1, step ev st = (Normal tt, st1)) as [st1 H1].
    { destruct ev as [| from data | i | i].
      - rewrite connection_step. eauto.
      - simpl in Hev. apply Forall_inv in Hev.
        destruct (on_message_recognized data st Hev) as (ss & h & E).
        simpl. rewrite E. eauto.
      - simpl. eauto.
      - simpl. eauto. }
    destruct (IH st1 Hrest) as (st' & Hrun & Hs).
    exists st'. rewrite run_cons, H1. split; [exact Hrun |].
    rewrite Hs, frames_cons, flat_map_app, app_assoc. f_equal.
    pose proof (step_strokes ev st) as E. rewrite H1 in E. exact E.
Qed.

Lemma added_strokes_count ds :
  Forall (fun d => recognized d = true) ds ->
  length (flat_map added_stroke ds) = length (filter is_stroke_add ds).
Proof.
  induction 1 as [| d rest Hd _ IH]; simpl; [reflexivity |].
  rewrite length_app, IH, (added_stroke_count d Hd).
  destruct (is_stroke_add d); reflexivity.
Qed.

(* ----------------------------------------------------------------- *)
(** ** Storing, relaying, dropping *)

(** C1.  A parsed message whose type is [stroke:remove], [stroke:move],
    [board:clear] or [user:join] leaves the strokes and the chat history as
    they were; its only effect is the rebroadcast.  The strokes change only
    through a [stroke:add], by [payload.stroke] being appended, and the chat
    history only through a [chat:message], by [payload] being appended. *)
Theorem C1_only_add_and_chat_mutate : forall data msg st,
  JSON_parse data = Some msg ->
  let st' := snd (on_message data st) in
  (forall tag,
      In tag ["stroke:remove"; "stroke:move"; "board:clear"; "user:join"] ->
      has_type msg tag = true ->
      on_message data st
      = (Normal tt, relayed data (strokes st) (chatHistory st) st))
  /\ (strokes st' = strokes st
      \/ has_type msg "stroke:add" = true /\
         exists p s, get_prop msg "payload" = Normal p /\
                     get_prop p "stroke" = Normal s /\
                     strokes st' = strokes st ++ [s] /\
                     chatHistory st' = chatHistory st)
  /\ (chatHistory st' = chatHistory st
      \/ has_type msg "chat:message" = true /\
         exists p, get_prop msg "payload" = Normal p /\
                   chatHistory st' = chatHistory st ++ [p] /\
                   strokes st' = strokes st)
  /\ (forall p s,
        has_type msg "stroke:add" = true ->
        get_prop msg "payload" = Normal p ->
        get_prop p "stroke" = Normal s ->
        strokes st' = strokes st ++ [s])
  /\ (forall p,
        has_type msg "chat:message" = true ->
        get_prop msg "payload" = Normal p ->
        chatHistory st' = chatHistory st ++ [p]).
Proof.
  intros data msg st Hp st'. subst st'.
  split; [| split; [| split; [| split]]].
  - intros tag Hin Htag.
    apply has_type_inv in Htag as (t & Ht & Heq).
    apply strict_eq_str_inv in Heq. subst t.
    apply (on_message_other _ _ _ _ Hp Ht);
      simpl in Hin; decompose [or] Hin; subst; try reflexivity; contradiction.
  - unfold has_type.
    destruct (get_prop msg "type") as [t | e] eqn:Ht.
    2: { left. rewrite (on_message_no_type _ _ _ _ Hp Ht). reflexivity. }
    destruct (strict_eq_str t "stroke:add") eqn:Ha.
    + destruct (get_prop msg "payload") as [p | e] eqn:Hq.
      * destruct (get_prop p "stroke") as [s | e] eqn:Hs.
        -- right. split; [reflexivity |]. exists p, s.
           rewrite (on_message_add _ _ _ _ _ _ Hp Ht Ha Hq Hs). auto.
        -- left. rewrite (on_message_add_bad_payload _ _ _ _ _ _ Hp Ht Ha Hq Hs).
           reflexivity.
      * left. rewrite (on_message_add_no_payload _ _ _ _ _ Hp Ht Ha Hq).
        reflexivity.
    + left. destruct (strict_eq_str t "chat:message") eqn:Hc.
      * destruct (payload_readable _ _ Ht) as [p Hq].
        rewrite (on_message_chat _ _ _ _ _ Hp Ht Hc Hq). reflexivity.
      * rewrite (on_message_other _ _ _ _ Hp Ht Ha Hc). reflexivity.
  - unfold has_type.
    destruct (get_prop msg "type") as [t | e] eqn:Ht.
    2: { left. rewrite (on_message_no_type _ _ _ _ Hp Ht). reflexivity. }
    destruct (strict_eq_str t "chat:message") eqn:Hc.
    + right. split; [reflexivity |].
      destruct (payload_readable _ _ Ht) as [p Hq]. exists p.
      rewrite (on_message_chat _ _ _ _ _ Hp Ht Hc Hq). auto.
    + left. destruct (strict_eq_str t "stroke:add") eqn:Ha.
      * destruct (get_prop msg "payload") as [p | e] eqn:Hq.
        -- destruct (get_prop p "stroke") as [s | e] eqn:Hs.
           ++ rewrite (on_message_add _ _ _ _ _ _ Hp Ht Ha Hq Hs). reflexivity.
           ++ rewrite (on_message_add_bad_payload _ _ _ _ _ _ Hp Ht Ha Hq Hs).
              reflexivity.
        -- rewrite (on_message_add_no_payload _ _ _ _ _ Hp Ht Ha Hq).
           reflexivity.
      * rewrite (on_message_other _ _ _ _ Hp Ht Ha Hc). reflexivity.
  - intros p s Htag Hq Hs.
    apply has_type_inv in Htag as (t & Ht & Ha).
    rewrite (on_message_add _ _ _ _ _ _ Hp Ht Ha Hq Hs). reflexivity.
  - intros p Htag Hq.
    apply has_type_inv in Htag as (t & Ht & Hc).
    rewrite (on_message_chat _ _ _ _ _ Hp Ht Hc Hq). reflexivity.
Qed.

(** C2, as the relay implements it.  A frame whose JSON body parses to a
    value with a readable [type] that is none of the eight tags mutates
    neither the strokes nor the chat history and provokes no reply of its
    own, but it is not discarded: the listener completes normally and the
    frame is relayed, unmodified and once, to every open session. *)
Theorem C2_unrecognized_type_is_relayed : forall data msg t st,
  JSON_parse data = Some msg ->
  get_prop msg "type" = Normal t ->
  (forall tag, In tag message_types -> strict_eq_str t tag = false) ->
  on_message data st
  = (Normal tt, relayed data (strokes st) (chatHistory st) st).
Proof.
  intros data msg t st Hp Ht Hnone.
  apply (on_message_other _ _ _ _ Hp Ht); apply Hnone; simpl; auto 10.
Qed.

(** C3.  Starting from the empty board, after any run of events whose
    frames are all messages of the protocol, [N] of them being
    [stroke:add], the board holds exactly [N] strokes: the [payload.stroke]
    of each [stroke:add], in order of receipt. *)
Theorem C3_board_is_the_adds_in_receipt_order : forall evs N,
  Forall (fun d => recognized d = true) (frames evs) ->
  length (filter is_stroke_add (frames evs)) = N ->
  exists st',
    run evs init = (Normal tt, st') /\
    strokes st' = flat_map added_stroke (frames evs) /\
    length (strokes st') = N.
Proof.
  intros evs N Hall HN.
  destruct (run_recognized evs init Hall) as (st' & Hrun & Hs).
  simpl in Hs. exists st'. split; [exact Hrun |]. split; [exact Hs |].
  rewrite Hs, added_strokes_count by assumption. exact HN.
Qed.

(** C4.  When a connection is accepted, the new session is sent exactly two
    frames before anything else: first the serialised [board:sync], whose
    [payload.strokes] is the relay's strokes array and whose [payload.users]
    is empty, then the serialised [chat:sync], whose [payload.chatHistory]
    is the relay's chat history.  Nothing else changes. *)
Theorem C4_snapshot_on_connect : forall st,
  step Connection st
  = (Normal tt,
     mkState (strokes st) (chatHistory st)
       (clients st ++
          [mkWebSocket (fresh (clients st)) OPEN
             [ JSON_stringify (syncMsg (strokes st));
               JSON_stringify (chatSyncMsg (chatHistory st)) ]]))
  /\ has_type (syncMsg (strokes st)) "board:sync" = true
  /\ (exists p, get_prop (syncMsg (strokes st)) "payload" = Normal p /\
                get_prop p "strokes" = Normal (JArr (strokes st)) /\
                get_prop p "users" = Normal (JArr []))
  /\ has_type (chatSyncMsg (chatHistory st)) "chat:sync" = true
  /\ (exists p, get_prop (chatSyncMsg (chatHistory st)) "payload" = Normal p /\
                get_prop p "chatHistory" = Normal (JArr (chatHistory st))).
Proof.
  intros st. split; [apply connection_step |].
  repeat split; eexists; repeat split; reflexivity.
Qed.

(** C6.  A frame that parses to a message of the protocol is relayed as
    received: the listener completes normally, every session that is open
    gets exactly the received [data] appended once to what it was sent,
    every other session gets nothing, and the originating session, being
    one of the open sessions, gets its own frame back once. *)
Theorem C6_verbatim_fan_out_with_echo : forall from data st,
  recognized data = true ->
  exists st',
    step (Inbound from data) st = (Normal tt, st') /\
    clients st' = map (deliver data) (clients st) /\
    (forall c, In c (clients st) -> readyState c = OPEN ->
               In (mkWebSocket (wsid c) OPEN (sent c ++ [data])) (clients st')) /\
    (forall c, In c (clients st) -> readyState c <> OPEN -> In c (clients st')) /\
    (forall c, In c (clients st) -> wsid c = from -> readyState c = OPEN ->
               exists c', In c' (clients st') /\ wsid c' = from /\
                          sent c' = sent c ++ [data]).
Proof.
  intros from data st Hrec.
  destruct (on_message_recognized data st Hrec) as (ss & h & E).
  exists (relayed data ss h st). simpl. split; [exact E |].
  split; [reflexivity |].
  assert (forall c, In c (clients st) -> readyState c = OPEN ->
            In (mkWebSocket (wsid c) OPEN (sent c ++ [data]))
               (map (deliver data) (clients st))) as Hopen.
  { intros c Hin Ho. apply in_map_iff. exists c. split; [| exact Hin].
    unfold deliver, record_frame. rewrite Ho. reflexivity. }
  split; [exact Hopen |]. split.
  - intros c Hin Hno. apply in_map_iff. exists c. split; [| exact Hin].
    unfold deliver. destruct (readyState c); try reflexivity. contradiction.
  - intros c Hin Hid Ho. eexists. split; [apply (Hopen c Hin Ho) |].
    split; [exact Hid | reflexivity].
Qed.

(** C7.  A frame whose body is not valid JSON is dropped silently: the
    listener returns normally and the whole relay state is what it was, so
    nothing is stored, nothing is sent to any session (no broadcast, no
    error reply), and no socket changes state. *)
Theorem C7_unparsable_frame_is_dropped : forall from data st,
  JSON_parse data = None ->
  step (Inbound from data) st = (Normal tt, st).
Proof.
  intros from data st H. simpl. apply on_message_unparsed. exact H.
Qed.

(** C9.  Whatever the event, the strokes before it are a prefix of the
    strokes after it, and so along any run: no stroke is ever removed,
    reordered or modified, and the length never decreases. *)
Theorem C9_strokes_only_grow :
  (forall ev st,
      exists added, strokes (snd (step ev st)) = strokes st ++ added)
  /\ (forall evs st,
      (exists added, strokes (snd (run evs st)) = strokes st ++ added) /\
      length (strokes st) <= length (strokes (snd (run evs st)))).
Proof.
  assert (forall evs st,
             exists added, strokes (snd (run evs st)) = strokes st ++ added)
    as Hrun.
  { induction evs as [| ev rest IH]; intros st.
    - exists []. simpl. rewrite app_nil_r. reflexivity.
    - rewrite run_cons. pose proof (step_strokes ev st) as E.
      destruct (step ev st) as [[[] | e] st1]; simpl in E.
      + destruct (IH st1) as [added H]. rewrite H, E, <- app_assoc. eauto.
      + simpl. rewrite E. eauto. }
  split.
  - intros ev st. rewrite step_strokes. eauto.
  - intros evs st. split; [apply Hrun |].
    destruct (Hrun evs st) as [added H]. rewrite H, length_app. lia.
Qed.

(* ----------------------------------------------------------------- *)
(** ** Further properties of the listener and of runs *)

Local Notation added_chat := (Relay.added_chat JSON_parse).
Local Notation completes := (Relay.completes JSON_parse).
Local Notation parses := (Relay.parses JSON_parse).
Local Notation relayed_frames := (Relay.relayed_frames JSON_parse).

Lemma type_readable msg :
  nullish msg = false -> exists t, get_prop msg "type" = Normal t.
Proof.
  destruct msg; simpl; try discriminate; intros _; eauto.
  destruct (lookup "type" props); eauto.
Qed.

Lemma stroke_readable p :
  nullish p = false -> exists s, get_prop p "stroke" = Normal s.
Proof.
  destruct p; simpl; try discriminate; intros _; eauto.
  destruct (lookup "stroke" props); eauto.
Qed.

Lemma nullish_throws v k : nullish v = true -> get_prop v k = Throw TypeError.
Proof. destruct v; simpl; try discriminate; reflexivity. Qed.

Lemma add_is_not_chat t :
  strict_eq_str t "stroke:add" = true -> strict_eq_str t "chat:message" = false.
Proof. intros H. apply strict_eq_str_inv in H. subst. reflexivity. Qed.

(** The listener on a value one of whose reads fails. *)
Lemma on_message_unreadable data msg st :
  JSON_parse data = Some msg ->
  unreadable msg = true ->
  on_message data st = (Throw TypeError, st).
Proof.
  unfold unreadable, has_type. intros Hp Hu.
  destruct (nullish msg) eqn:Hn.
  - apply (on_message_no_type _ _ _ _ Hp). apply nullish_throws. exact Hn.
  - simpl in Hu. destruct (type_readable _ Hn) as [t Ht]. rewrite Ht in Hu.
    apply andb_prop in Hu as [Ha Hq].
    destruct (payload_readable _ _ Ht) as [p Hpay]. rewrite Hpay in Hq.
    apply (on_message_add_bad_payload _ _ _ _ _ _ Hp Ht Ha Hpay).
    apply nullish_throws. exact Hq.
Qed.

(** The listener on any frame it takes to its end, in closed form. *)
Lemma on_message_completes data st :
  completes data = true ->
  on_message data st
  = (Normal tt,
     mkState (strokes st ++ added_stroke data)
             (chatHistory st ++ added_chat data)
             (if parses data then map (deliver data) (clients st) else clients st)).
Proof.
  unfold Relay.completes, Relay.added_stroke, Relay.added_chat, Relay.parses,
    unreadable, has_type.
  destruct (JSON_parse data) as [msg |] eqn:Hp.
  2: { intros _. rewrite (on_message_unparsed _ _ Hp), !app_nil_r.
       destruct st; reflexivity. }
  intros Hc. apply negb_true_iff, orb_false_iff in Hc as [Hn Hc].
  destruct (type_readable _ Hn) as [t Ht]. rewrite Ht in *.
  destruct (payload_readable _ _ Ht) as [p Hq]. rewrite Hq in *.
  destruct (strict_eq_str t "stroke:add") eqn:Ha.
  - simpl in Hc. destruct (stroke_readable _ Hc) as [s Hs]. rewrite Hs.
    rewrite (add_is_not_chat _ Ha), app_nil_r.
    apply (on_message_add _ _ _ _ _ _ Hp Ht Ha Hq Hs).
  - rewrite app_nil_r. destruct (strict_eq_str t "chat:message") eqn:Hchat.
    + apply (on_message_chat _ _ _ _ _ Hp Ht Hchat Hq).
    + rewrite app_nil_r. apply (on_message_other _ _ _ _ Hp Ht Ha Hchat).
Qed.

Lemma completes_or_unreadable data :
  completes data = true
  \/ exists msg, JSON_parse data = Some msg /\ unreadable msg = true.
Proof.
  unfold Relay.completes.
  destruct (JSON_parse data) as [msg |]; [| left; reflexivity].
  destruct (unreadable msg) eqn:Hu; [right; eauto | left; reflexivity].
Qed.

Lemma on_message_chats data st :
  chatHistory (snd (on_message data st)) = chatHistory st ++ added_chat data.
Proof.
  destruct (completes_or_unreadable data) as [Hc | (msg & Hp & Hu)].
  - rewrite (on_message_completes _ _ Hc). reflexivity.
  - rewrite (on_message_unreadable _ _ _ Hp Hu). simpl.
    unfold Relay.added_chat, has_type. rewrite Hp.
    unfold unreadable, has_type in Hu.
    destruct (nullish msg) eqn:Hn.
    + rewrite (nullish_throws _ _ Hn), app_nil_r. reflexivity.
    + simpl in Hu. destruct (type_readable _ Hn) as [t Ht]. rewrite Ht in *.
      apply andb_prop in Hu as [Ha _].
      rewrite (add_is_not_chat _ Ha), app_nil_r. reflexivity.
Qed.

Lemma step_chats ev st :
  chatHistory (snd (step ev st))
  = chatHistory st ++ flat_map added_chat (frames [ev]).
Proof.
  destruct ev as [| from data | i | i]; simpl.
  - fold (step Connection st). rewrite connection_step, app_nil_r. reflexivity.
  - rewrite app_nil_r. apply on_message_chats.
  - rewrite app_nil_r. reflexivity.
  - rewrite app_nil_r. reflexivity.
Qed.

(** A run all of whose frames are taken to their end never throws; the
    board and the chat history grow by what the frames add. *)
Lemma run_completes evs : forall st,
  Forall (fun d => completes d = true) (frames evs) ->
  exists st',
    run evs st = (Normal tt, st') /\
    strokes st' = strokes st ++ flat_map added_stroke (frames evs) /\
    chatHistory st' = chatHistory st ++ flat_map added_chat (frames evs).
Proof.
  induction evs as [| ev rest IH]; intros st Hall.
  - exists st. simpl. rewrite !app_nil_r. auto.
  - rewrite frames_cons in Hall. apply Forall_app in Hall as [Hev Hrest].
    assert (exists st1, step ev st = (Normal tt, st1)) as [st1 H1].
    { destruct ev as [| from data | i | i].
      - rewrite connection_step. eauto.
      - simpl in Hev. apply Forall_inv in Hev. simpl.
        rewrite (on_message_completes _ _ Hev). eauto.
      - simpl. eauto.
      - simpl. eauto. }
    destruct (IH st1 Hrest) as (st' & Hrun & Hs & Hc).
    exists st'. rewrite run_cons, H1. split; [exact Hrun |].
    pose proof (step_strokes ev st) as Es. pose proof (step_chats ev st) as Ec.
    rewrite H1 in Es, Ec. cbn [snd] in Es, Ec.
    rewrite Hs, Hc, Es, Ec, (frames_cons ev rest), !flat_map_app, !app_assoc.
    split; reflexivity.
Qed.

(** X1.  The listener throws exactly on the parsed values one of whose
    unguarded reads fails: [null] (or [undefined]), and a [stroke:add] whose
    [payload] is missing or [null].  The exception is a [TypeError], raised
    before anything is stored or relayed.  On every other parsed value the
    listener completes. *)
Theorem listener_throws_exactly_on_unreadable : forall data msg st,
  JSON_parse data = Some msg ->
  (fst (on_message data st) = Throw TypeError <-> unreadable msg = true)
  /\ (unreadable msg = true -> on_message data st = (Throw TypeError, st))
  /\ (unreadable msg = false -> fst (on_message data st) = Normal tt).
Proof.
  intros data msg st Hp.
  assert (unreadable msg = false -> fst (on_message data st) = Normal tt) as Hok.
  { intros Hu. rewrite on_message_completes; [reflexivity |].
    unfold Relay.completes. rewrite Hp, Hu. reflexivity. }
  split; [| split].
  - split.
    + intros Hthrow. destruct (unreadable msg); [reflexivity |].
      rewrite Hok in Hthrow by reflexivity. discriminate.
    + intros Hu. rewrite (on_message_unreadable _ _ _ Hp Hu). reflexivity.
  - apply on_message_unreadable. exact Hp.
  - exact Hok.
Qed.

(** X2.  The chat history is append-only: whatever the event, the history
    before it is a prefix of the history after it, and so along any run,
    also one that ends in an exception. *)
Theorem chat_history_only_grows :
  (forall ev st,
      exists added, chatHistory (snd (step ev st)) = chatHistory st ++ added)
  /\ (forall evs st,
      (exists added, chatHistory (snd (run evs st)) = chatHistory st ++ added) /\
      length (chatHistory st) <= length (chatHistory (snd (run evs st)))).
Proof.
  assert (forall evs st,
             exists added,
               chatHistory (snd (run evs st)) = chatHistory st ++ added) as Hrun.
  { induction evs as [| ev rest IH]; intros st.
    - exists []. simpl. rewrite app_nil_r. reflexivity.
    - rewrite run_cons. pose proof (step_chats ev st) as E.
      destruct (step ev st) as [[[] | e] st1]; simpl in E.
      + destruct (IH st1) as [added H]. rewrite H, E, <- app_assoc. eauto.
      + simpl. rewrite E. eauto. }
  split.
  - intros ev st. rewrite step_chats. eauto.
  - intros evs st. split; [apply Hrun |].
    destruct (Hrun evs st) as [added H]. rewrite H, length_app. lia.
Qed.

(** X3.  From any state, a run whose frames are each either not JSON or
    readable completes, and afterwards the board is the old board followed
    by the [payload.stroke] of the [stroke:add] frames, and the chat history
    the old one followed by the [payload] of the [chat:message] frames, both
    in order of receipt. *)
Theorem run_appends_strokes_and_chat : forall evs st,
  Forall (fun d => completes d = true) (frames evs) ->
  exists st',
    run evs st = (Normal tt, st') /\
    strokes st' = strokes st ++ flat_map added_stroke (frames evs) /\
    chatHistory st' = chatHistory st ++ flat_map added_chat (frames evs).
Proof. intros evs st. apply run_completes. Qed.

(** X4.  A client that connects after such a run is sent a [board:sync]
    listing every stroke ever added, in order of receipt, and a [chat:sync]
    listing every chat entry: the [stroke:remove], [stroke:move] and
    [board:clear] frames of the run have no part in the snapshot. *)
Theorem late_joiner_gets_every_added_stroke : forall evs,
  Forall (fun d => completes d = true) (frames evs) ->
  exists st,
    run evs init = (Normal tt, st) /\
    step Connection st
    = (Normal tt,
       mkState (strokes st) (chatHistory st)
         (clients st ++
            [mkWebSocket (fresh (clients st)) OPEN
               [ JSON_stringify (syncMsg (flat_map added_stroke (frames evs)));
                 JSON_stringify (chatSyncMsg (flat_map added_chat (frames evs))) ]])).
Proof.
  intros evs Hall.
  destruct (run_completes evs init Hall) as (st & Hrun & Hs & Hc).
  exists st. split; [exact Hrun |].
  rewrite connection_step. simpl in Hs, Hc. rewrite <- Hs, <- Hc. reflexivity.
Qed.

Lemma deliver_all_nil (c : WebSocket) : deliver_all [] c = c.
Proof.
  unfold deliver_all. destruct c as [i state log]. simpl.
  destruct (is_open state); [rewrite app_nil_r |]; reflexivity.
Qed.

Lemma deliver_all_cons d ds (c : WebSocket) :
  deliver_all (d :: ds) c = deliver_all ds (deliver d c).
Proof.
  unfold deliver_all, deliver, record_frame.
  destruct (is_open (readyState c)) eqn:E; simpl; rewrite ?E; [| reflexivity].
  rewrite <- app_assoc. reflexivity.
Qed.

(** X5.  Broadcast order is arrival order.  Over a run of inbound frames,
    each either not JSON or readable, every session that is open has been
    sent, after what it had been sent before, exactly the frames that
    parse, unmodified and in order of arrival; the frames that are not JSON
    are sent to nobody, and a session that is not open is sent nothing. *)
Theorem broadcast_order_is_arrival_order : forall evs st,
  Forall (fun ev => is_inbound ev = true) evs ->
  Forall (fun d => completes d = true) (frames evs) ->
  exists st',
    run evs st = (Normal tt, st') /\
    clients st' = map (deliver_all (relayed_frames evs)) (clients st).
Proof.
  induction evs as [| ev rest IH]; intros st Hin Hall.
  - exists st. split; [reflexivity |]. simpl.
    rewrite (map_ext _ (fun c => c) deliver_all_nil), map_id. reflexivity.
  - apply Forall_cons_iff in Hin as [Hev Hin].
    destruct ev as [| from d | i | i]; try discriminate.
    rewrite frames_cons in Hall. apply Forall_app in Hall as [Hd Hall].
    apply Forall_inv in Hd.
    rewrite run_cons. simpl. rewrite (on_message_completes _ _ Hd).
    match goal with |- context [run rest ?s] => destruct (IH s Hin Hall) as (st' & Hrun & Hc) end.
    exists st'. split; [exact Hrun |]. rewrite Hc. simpl.
    unfold Relay.relayed_frames. rewrite (frames_cons (Inbound from d) rest).
    simpl. fold (Relay.parses JSON_parse d).
    destruct (parses d).
    + rewrite map_map. apply map_ext. intros c. symmetry. apply deliver_all_cons.
    + reflexivity.
Qed.

(** X6.  Payloads are stored unchecked.  A [stroke:add] whose [payload] is
    an object without a [stroke] property appends [undefined] to the board,
    and a [chat:message] without a [payload] appends [undefined] to the chat
    history; both frames are relayed like any other. *)
Theorem missing_properties_store_undefined : forall data props st,
  JSON_parse data = Some (JObj props) ->
  (forall fields,
      lookup "type" props = Some (JStr "stroke:add") ->
      lookup "payload" props = Some (JObj fields) ->
      lookup "stroke" fields = None ->
      on_message data st
      = (Normal tt, relayed data (strokes st ++ [JUndefined]) (chatHistory st) st))
  /\ (lookup "type" props = Some (JStr "chat:message") ->
      lookup "payload" props = None ->
      on_message data st
      = (Normal tt, relayed data (strokes st) (chatHistory st ++ [JUndefined]) st)).
Proof.
  intros data props st Hp. split.
  - intros fields Ht Hq Hs.
    apply (on_message_add _ _ (JStr "stroke:add") (JObj fields) _ _ Hp);
      simpl; rewrite ?Ht, ?Hq, ?Hs; reflexivity.
  - intros Ht Hq.
    apply (on_message_chat _ _ (JStr "chat:message") _ _ Hp);
      simpl; rewrite ?Ht, ?Hq; reflexivity.
Qed.

Lemma on_message_clients data st :
  clients (snd (on_message data st)) = clients st
  \/ clients (snd (on_message data st)) = map (deliver data) (clients st).
Proof.
  destruct (completes_or_unreadable data) as [Hc | (msg & Hp & Hu)].
  - rewrite (on_message_completes _ _ Hc). simpl. destruct (parses data); auto.
  - rewrite (on_message_unreadable _ _ _ Hp Hu). auto.
Qed.

(** X7.  What a session has been sent is never taken back.  Across any
    event, a session either is the one the event removes, or is still among
    the clients under the same identity with its earlier frames as a
    prefix of its frames. *)
Theorem sent_frames_are_kept : forall ev st c,
  In c (clients st) ->
  ev = Closed (wsid c)
  \/ exists c' more,
       In c' (clients (snd (step ev st))) /\
       wsid c' = wsid c /\
       sent c' = sent c ++ more.
Proof.
  intros ev st c Hin.
  assert (forall cs, In c cs ->
            exists c' more, In c' cs /\ wsid c' = wsid c /\ sent c' = sent c ++ more)
    as Hsame.
  { intros cs H. exists c, []. rewrite app_nil_r. auto. }
  destruct ev as [| from data | i | i].
  - right. rewrite connection_step. simpl.
    apply Hsame. apply in_or_app. left. exact Hin.
  - right. simpl. destruct (on_message_clients data st) as [E | E]; rewrite E.
    + apply Hsame. exact Hin.
    + exists (deliver data c).
      exists (if is_open (readyState c) then [data] else []).
      split; [apply in_map; exact Hin |].
      unfold deliver, record_frame.
      destruct (is_open (readyState c)); simpl; rewrite ?app_nil_r; auto.
  - right. simpl. exists (set_closing i c), [].
    split; [apply in_map; exact Hin |].
    unfold set_closing. destruct (Nat.eqb (wsid c) i); simpl;
      rewrite app_nil_r; auto.
  - simpl. destruct (Nat.eqb (wsid c) i) eqn:E.
    + left. apply Nat.eqb_eq in E. subst. reflexivity.
    + right. apply Hsame. apply filter_In. rewrite E. auto.
Qed.

(** X8.  The listener does not look at who may send what: a [board:sync]
    or [chat:sync] frame that a client sends is relayed to every open
    session like any other frame, and leaves the relay's own board and chat
    history as they were. *)
Theorem snapshot_frames_from_clients_are_relayed : forall data msg tag st,
  JSON_parse data = Some msg ->
  In tag ["board:sync"; "chat:sync"] ->
  has_type msg tag = true ->
  on_message data st
  = (Normal tt, relayed data (strokes st) (chatHistory st) st).
Proof.
  intros data msg tag st Hp Hin Htag.
  apply has_type_inv in Htag as (t & Ht & Heq).
  apply strict_eq_str_inv in Heq. subst t.
  apply (on_message_other _ _ _ _ Hp Ht);
    simpl in Hin; decompose [or] Hin; subst; try reflexivity; contradiction.
Qed.

End RelayProperties.

(* ================================================================= *)
(** * Properties of the client *)

Section ClientProperties.

Import UseWebSocket.

Variable JSON_stringify : JsVal -> string.

Local Notation send := (UseWebSocket.send JSON_stringify).

(** C10.  [send] transmits only through a socket that exists and is open:
    then the serialised message is the one frame added to what the socket
    has transmitted.  For a socket that is absent, connecting, closing or
    closed, [send] returns normally and leaves everything as it was: no
    exception, no transmission, and nothing kept for later. *)
Theorem C10_send_only_when_open : forall msg ws,
  (forall s, ws = Some s -> readyState s = OPEN ->
     send msg ws
     = (Normal tt,
        Some (mkWebSocket OPEN
                (sent s ++ [JSON_stringify (Messages.message_obj msg)]))))
  /\ (ws = None \/ (exists s, ws = Some s /\ readyState s <> OPEN) ->
      send msg ws = (Normal tt, ws))
  /\ (snd (send msg ws) <> ws ->
      exists s, ws = Some s /\ readyState s = OPEN)
  /\ fst (send msg ws) = Normal tt.
Proof.
  intros msg ws. unfold UseWebSocket.send, WebSocket_send.
  destruct ws as [s |].
  - destruct s as [state frames_sent]. simpl.
    destruct state; simpl; (split; [| split; [| split]]);
      try reflexivity;
      try (intros s' [= <-] H; simpl in H; (discriminate || reflexivity));
      try (intros _; reflexivity);
      try (intros H; now contradiction H);
      try (intros [H | (s' & [= <-] & H)]; [discriminate | now contradiction H]);
      try (intros _; eexists; split; reflexivity).
  - repeat split; try reflexivity; try discriminate.
    intros H. now contradiction H.
Qed.

End ClientProperties.

Section StoreProperties.

Import Whiteboard.

Variable Stroke : Type.
Variable DrawingTool : Type.
Variable tool_id : DrawingTool -> string.

Local Notation WhiteboardState := (Whiteboard.WhiteboardState Stroke DrawingTool).
Local Notation addStroke := (Whiteboard.addStroke tool_id).
Local Notation setAllStrokes := (Whiteboard.setAllStrokes tool_id).
Local Notation apply_stroke_add := (Whiteboard.apply_stroke_add tool_id).

(** C5, as the store implements it.  [addStroke] appends to the strokes its
    callback was created with and looks at no [id]: a delivery that is
    applied a second time appends a second copy, so afterwards the store is
    the earlier strokes followed by the stroke twice, and the strokes
    sharing the delivered stroke's [id] (or any other key) are two more
    than before. *)
Theorem C5_add_twice_appends_twice :
  forall (stroke : Stroke) (st : WhiteboardState),
    (forall rendered : WhiteboardState,
        strokes (addStroke rendered stroke st) = strokes rendered ++ [stroke])
    /\ strokes (apply_stroke_add stroke (apply_stroke_add stroke st))
       = strokes st ++ [stroke; stroke]
    /\ (forall key : Stroke -> string,
          length (filter (fun s => String.eqb (key s) (key stroke))
                    (strokes (apply_stroke_add stroke (apply_stroke_add stroke st))))
          = 2 + length (filter (fun s => String.eqb (key s) (key stroke))
                          (strokes st))).
Proof.
  intros stroke st.
  assert (forall rendered current : WhiteboardState,
             strokes (addStroke rendered stroke current)
             = strokes rendered ++ [stroke]) as Hadd
      by (intros rendered []; reflexivity).
  assert (strokes (apply_stroke_add stroke (apply_stroke_add stroke st))
          = strokes st ++ [stroke; stroke]) as Htwice.
  { unfold apply_stroke_add. rewrite !Hadd, <- app_assoc. reflexivity. }
  split; [intros; apply Hadd |]. split; [exact Htwice |].
  intros key. rewrite Htwice, filter_app, length_app. simpl.
  rewrite String.eqb_refl. simpl. lia.
Qed.

(** C8.  [setAllStrokes] overwrites: afterwards the strokes are exactly the
    snapshot, whatever they were before, and every other field of the state
    is untouched. *)
Theorem C8_snapshot_replaces_strokes :
  forall (snapshot : list Stroke) (st : WhiteboardState),
    let st' := setAllStrokes snapshot st in
    strokes st' = snapshot
    /\ (forall other : WhiteboardState,
          strokes (setAllStrokes snapshot other) = strokes st')
    /\ st' = mkWhiteboard (activeTool st) (settings st) (allTools st)
               (currentStroke st) snapshot (selectedStrokes st)
               (previewShape st) (isDragging st) (dragStart st)
               (exportFormat st) (isWasmLoaded st) (wasmError st)
               (strokeUpdateTrigger st).
Proof.
  intros snapshot st. simpl. split; [| split].
  - destruct st; reflexivity.
  - intros other. destruct st, other; reflexivity.
  - destruct st; reflexivity.
Qed.

End StoreProperties.

(* ================================================================= *)
(** * From one client to the others *)

Section EndToEnd.

Import Messages.

Variable JSON_parse : string -> option JsVal.
Variable JSON_stringify : JsVal -> string.
Variable App : Type.
Variable onMessage : JsVal -> App -> Completion unit * App.

Local Notation send := (UseWebSocket.send JSON_stringify).
Local Notation onmessage := (UseWebSocket.onmessage JSON_parse App onMessage).
Local Notation step := (Relay.step JSON_parse JSON_stringify).


End EndToEnd.

(* ================================================================= *)
(** * Properties of the reducer and of the store callbacks *)

Section ReducerProperties.

Import Whiteboard.

Variable Stroke : Type.
Variable DrawingTool : Type.
Variable tool_id : DrawingTool -> string.

Local Notation WhiteboardState := (Whiteboard.WhiteboardState Stroke DrawingTool).
Local Notation WhiteboardAction := (Whiteboard.WhiteboardAction Stroke DrawingTool).
Local Notation whiteboardReducer := (Whiteboard.whiteboardReducer Stroke DrawingTool tool_id).
Local Notation addStroke := (Whiteboard.addStroke tool_id).
Local Notation setAllStrokes := (Whiteboard.setAllStrokes tool_id).
Local Notation apply_stroke_add := (Whiteboard.apply_stroke_add tool_id).
Local Notation SET_ACTIVE_TOOL := (Whiteboard.SET_ACTIVE_TOOL Stroke DrawingTool).

(** X10.  Of the thirteen actions only [SET_STROKES] and [CLEAR_CANVAS]
    touch the strokes, and only [SET_SELECTED_STROKES] and [CLEAR_CANVAS]
    the selection: under every other action both are what they were. *)
Theorem reducer_keeps_strokes_and_selection :
  forall (st : WhiteboardState) (action : WhiteboardAction),
    (strokes (whiteboardReducer st action) <> strokes st ->
       (exists payload, action = SET_STROKES payload)
       \/ action = CLEAR_CANVAS Stroke DrawingTool)
    /\ (selectedStrokes (whiteboardReducer st action) <> selectedStrokes st ->
       (exists payload, action = SET_SELECTED_STROKES Stroke DrawingTool payload)
       \/ action = CLEAR_CANVAS Stroke DrawingTool).
Proof.
  intros st action. destruct st.
  split; intros H; destruct action; simpl in H;
    solve [ now contradiction H | left; eauto | right; reflexivity ].
Qed.

(** X11.  [SET_ACTIVE_TOOL] selects by identifier with a fallback: when a
    tool with the requested identifier exists the active tool becomes one
    of the known tools with that identifier, when none does it becomes the
    first known tool, and only when no tool is known at all does the old
    active tool stay.  Nothing else in the state changes. *)
Theorem set_active_tool_finds_or_falls_back :
  forall (st : WhiteboardState) (requested : string),
    let st' := whiteboardReducer st (SET_ACTIVE_TOOL requested) in
    ((exists t, In t (allTools st) /\ tool_id t = requested) ->
       In (activeTool st') (allTools st) /\ tool_id (activeTool st') = requested)
    /\ ((forall t, In t (allTools st) -> tool_id t <> requested) ->
       activeTool st' = hd (activeTool st) (allTools st))
    /\ (allTools st <> [] -> In (activeTool st') (allTools st))
    /\ st' = mkWhiteboard (activeTool st') (settings st) (allTools st)
               (currentStroke st) (strokes st) (selectedStrokes st)
               (previewShape st) (isDragging st) (dragStart st)
               (exportFormat st) (isWasmLoaded st) (wasmError st)
               (strokeUpdateTrigger st).
Proof.
  intros st requested. destruct st as [tool sets tools cur strks sel prev drag
                                        start fmt loaded err trig].
  simpl.
  destruct (find (fun t => String.eqb (tool_id t) requested) tools)
    as [found |] eqn:Hfind.
  - apply find_some in Hfind as [Hin Heq]. apply String.eqb_eq in Heq.
    split; [| split; [| split]].
    + intros _. split; assumption.
    + intros Hnone. exfalso. exact (Hnone found Hin Heq).
    + intros _. exact Hin.
    + reflexivity.
  - split; [| split; [| split]].
    + intros (t & Hin & Heq). exfalso.
      pose proof (find_none _ _ Hfind t Hin) as Hno. simpl in Hno.
      rewrite Heq, String.eqb_refl in Hno. discriminate.
    + intros _. destruct tools; reflexivity.
    + destruct tools as [| t0 rest]; [intros H; now contradiction H |].
      intros _. left. reflexivity.
    + reflexivity.
Qed.

(** X12.  [addStroke] builds on the strokes of the render that created it.
    Called twice from one render it keeps only the second stroke; called
    from a render older than a snapshot it undoes the snapshot; and a
    snapshot applied after it discards the added stroke.  Only when every
    call uses the callback of the state it acts on do the strokes
    accumulate. *)
Theorem add_stroke_builds_on_its_render :
  forall (rendered current : WhiteboardState) (s1 s2 : Stroke)
         (snapshot : list Stroke),
    strokes (addStroke rendered s2 (addStroke rendered s1 current))
    = strokes rendered ++ [s2]
    /\ strokes (addStroke rendered s1 (setAllStrokes snapshot current))
       = strokes rendered ++ [s1]
    /\ strokes (setAllStrokes snapshot (apply_stroke_add s1 current)) = snapshot
    /\ strokes (apply_stroke_add s1 (setAllStrokes snapshot current))
       = snapshot ++ [s1]
    /\ strokes (apply_stroke_add s2 (apply_stroke_add s1 current))
       = strokes current ++ [s1; s2].
Proof.
  intros rendered current s1 s2 snapshot.
  destruct rendered, current. simpl.
  repeat split; try reflexivity.
  rewrite <- app_assoc. reflexivity.
Qed.

End ReducerProperties.

(* ================================================================= *)
(** * Properties of the callbacks that face the drawing engine *)

Section BridgeProperties.

Import Whiteboard Bridge.

Variable round255 : JsVal -> string.
Variable Engine : Type.
Variable getStrokes : Engine -> Completion (list JsVal).
Variable removeStroke : nat -> Engine -> Completion unit * Engine.
Variable DrawingTool : Type.
Variable tool_id : DrawingTool -> string.

Local Notation wasmStrokeToReact := (Bridge.wasmStrokeToReact round255).
Local Notation WhiteboardState := (Bridge.WhiteboardState DrawingTool).
Local Notation syncStrokesFromWasm :=
  (Bridge.syncStrokesFromWasm round255 Engine getStrokes DrawingTool tool_id).
Local Notation stroke_update_effect :=
  (Bridge.stroke_update_effect round255 Engine getStrokes DrawingTool tool_id).
Local Notation triggerStrokeUpdate := (Bridge.triggerStrokeUpdate DrawingTool tool_id).
Local Notation forEach_remove := (Bridge.forEach_remove Engine removeStroke).
Local Notation deleteSelectedStrokes :=
  (Bridge.deleteSelectedStrokes Engine removeStroke DrawingTool tool_id).
Local Notation with_strokes st ss :=
  (mkWhiteboard (activeTool st) (settings st) (allTools st) (currentStroke st)
     ss (selectedStrokes st) (previewShape st) (isDragging st) (dragStart st)
     (exportFormat st) (isWasmLoaded st) (wasmError st) (strokeUpdateTrigger st)).

Lemma truthy_readable v k :
  truthy v = true -> exists x, get_prop v k = Normal x.
Proof.
  destruct v; simpl; try discriminate; intros _; eauto.
  destruct (lookup k props); eauto.
Qed.

Lemma or_default_truthy v d : truthy d = true -> truthy (or_default v d) = true.
Proof. unfold or_default. destruct (truthy v) eqn:E; auto. Qed.

(** X13.  [wasmStrokeToReact] never throws, whatever it is handed, and what
    it returns always has points and a thickness that are not falsy: a
    falsy stroke converts to the empty black stroke of thickness 1, a stroke
    without a colour is black, and a thickness of 0 (or none) becomes 1. *)
Theorem wasm_stroke_conversion_defaults : forall w,
  exists s,
    wasmStrokeToReact w = Normal s
    /\ truthy (points s) = true
    /\ truthy (thickness s) = true
    /\ (truthy w = false ->
        s = mkStroke (JArr []) "rgb(0, 0, 0)" (JNum (mkNumber 1 0)))
    /\ (forall c, get_prop w "color" = Normal c -> truthy c = false ->
                  color s = "rgb(0, 0, 0)")
    /\ (forall t, truthy w = true -> get_prop w "thickness" = Normal t ->
                  truthy t = false -> thickness s = JNum (mkNumber 1 0)).
Proof.
  intros w. unfold Bridge.wasmStrokeToReact, rgb.
  destruct (truthy w) eqn:Hw; simpl.
  2: { eexists. repeat split; try reflexivity; discriminate. }
  destruct (truthy_readable w "color" Hw) as [c Hc].
  destruct (truthy_readable w "points" Hw) as [p Hp].
  destruct (truthy_readable w "thickness" Hw) as [t Ht].
  rewrite Hc, Hp, Ht. simpl.
  destruct (truthy c) eqn:Hcol; simpl.
  - destruct (truthy_readable c "r" Hcol) as [r Hr].
    destruct (truthy_readable c "g" Hcol) as [g Hg].
    destruct (truthy_readable c "b" Hcol) as [b Hb].
    repeat (rewrite ?Hc, ?Hr, ?Hg, ?Hb, ?Ht; simpl).
    eexists. split; [reflexivity |]. simpl.
    repeat split; try (apply or_default_truthy; reflexivity); try discriminate.
    + intros c' [= <-] Hno. congruence.
    + intros t' _ [= <-] Hno. unfold or_default. rewrite Hno. reflexivity.
  - eexists. split; [reflexivity |]. simpl.
    repeat split; try (apply or_default_truthy; reflexivity); try discriminate.
    intros t' _ [= <-] Hno. unfold or_default. rewrite Hno. reflexivity.
Qed.

Lemma map_conversion_total ws :
  exists rs,
    map_completion wasmStrokeToReact ws = Normal rs /\
    Forall2 (fun w r => wasmStrokeToReact w = Normal r) ws rs.
Proof.
  induction ws as [| w rest (rs & Hrs & Hall)]; simpl.
  - exists []. split; [reflexivity | constructor].
  - destruct (wasm_stroke_conversion_defaults w) as (r & Hr & _).
    rewrite Hr, Hrs. simpl. exists (r :: rs).
    split; [reflexivity | constructor; assumption].
Qed.

(** X14.  [syncStrokesFromWasm] does nothing while the engine is not
    loaded or when [getStrokes] throws; otherwise it overwrites the strokes
    of the store with the conversion of the engine's strokes, one for one
    and in order, whatever the store held, and touches nothing else. *)
Theorem sync_overwrites_with_engine_strokes :
  forall (isLoaded : bool) (engine : Engine) (st : WhiteboardState),
    (isLoaded = false -> syncStrokesFromWasm isLoaded engine st = st)
    /\ (forall e, getStrokes engine = Throw e ->
                  syncStrokesFromWasm isLoaded engine st = st)
    /\ (forall ws, isLoaded = true -> getStrokes engine = Normal ws ->
          exists rs,
            Forall2 (fun w r => wasmStrokeToReact w = Normal r) ws rs /\
            syncStrokesFromWasm isLoaded engine st = with_strokes st rs).
Proof.
  intros isLoaded engine st. unfold Bridge.syncStrokesFromWasm.
  split; [| split].
  - intros ->. reflexivity.
  - intros e He. rewrite He. destruct isLoaded; reflexivity.
  - intros ws -> Hws. rewrite Hws. simpl.
    destruct (map_conversion_total ws) as (rs & Hrs & Hall).
    rewrite Hrs. exists rs. split; [exact Hall |]. destruct st; reflexivity.
Qed.

(** X15.  The strokes a snapshot or [addStroke] put in the store do not
    outlive the next local stroke update: with the engine loaded,
    [triggerStrokeUpdate] followed by the effect on the trigger leaves the
    store holding the conversion of the engine's strokes, none of which
    came from the snapshot.  (The trigger starts at 0 and is only ever
    incremented.) *)
Theorem local_update_discards_synced_strokes :
  forall (engine : Engine) (ws : list JsVal) (st : WhiteboardState)
         (snapshot : list Bridge.Stroke),
    getStrokes engine = Normal ws ->
    (0 <= strokeUpdateTrigger st)%Z ->
    exists rs,
      Forall2 (fun w r => wasmStrokeToReact w = Normal r) ws rs /\
      strokes (stroke_update_effect true engine
                 (triggerStrokeUpdate (setAllStrokes tool_id snapshot st)))
      = rs.
Proof.
  intros engine ws st snapshot Hws Htrig.
  destruct (map_conversion_total ws) as (rs & Hrs & Hall).
  exists rs. split; [exact Hall |].
  unfold Bridge.stroke_update_effect, Bridge.triggerStrokeUpdate,
    Bridge.syncStrokesFromWasm.
  destruct st. simpl in *.
  replace (0 <? strokeUpdateTrigger0 + 1)%Z with true
    by (symmetry; apply Z.ltb_lt; lia).
  rewrite Hws, Hrs. reflexivity.
Qed.

(** ** Deleting the selection *)

Lemma insert_desc_In n l x : In x (insert_desc n l) <-> x = n \/ In x l.
Proof.
  induction l as [| m rest IH]; simpl.
  - intuition.
  - destruct (Nat.leb m n); simpl; [intuition |]. rewrite IH. intuition.
Qed.

Lemma sort_desc_In l x : In x (sort_desc l) <-> In x l.
Proof.
  induction l as [| n rest IH]; simpl; [reflexivity |].
  rewrite insert_desc_In, IH. intuition.
Qed.

(** Strictly descending: every element is above all that follow it. *)
Local Notation descending := (StronglySorted (fun a b => b < a)).

Lemma insert_desc_descending n l :
  ~ In n l -> descending l -> descending (insert_desc n l).
Proof.
  induction l as [| m rest IH]; intros Hnew Hsorted; simpl.
  - repeat constructor.
  - apply StronglySorted_inv in Hsorted as [Hrest Hm].
    destruct (Nat.leb m n) eqn:E.
    + apply Nat.leb_le in E.
      assert (m < n) as Hlt by (simpl in Hnew; lia).
      constructor; [constructor; assumption |].
      constructor; [exact Hlt |].
      eapply Forall_impl; [| exact Hm]. simpl. intros b Hb. lia.
    + apply Nat.leb_gt in E. constructor.
      * apply IH; [simpl in Hnew; tauto | exact Hrest].
      * apply Forall_forall. intros b Hb. apply insert_desc_In in Hb as [-> | Hb].
        -- exact E.
        -- rewrite Forall_forall in Hm. apply Hm. exact Hb.
Qed.

Lemma sort_desc_descending l : NoDup l -> descending (sort_desc l).
Proof.
  induction 1 as [| n rest Hnew _ IH]; simpl; [constructor |].
  apply insert_desc_descending; [| exact IH].
  rewrite sort_desc_In. exact Hnew.
Qed.

Lemma keep_from_all {A} k sel (l : list A) :
  Forall (fun i => i < k) sel -> keep_from k sel l = l.
Proof.
  revert k. induction l as [| x rest IH]; intros k Hsel; simpl; [reflexivity |].
  replace (existsb (Nat.eqb k) sel) with false.
  - rewrite IH; [reflexivity |].
    eapply Forall_impl; [| exact Hsel]. simpl. intros i Hi. lia.
  - symmetry. apply not_true_is_false. intros H.
    apply existsb_exists in H as (i & Hin & Heq). apply Nat.eqb_eq in Heq.
    rewrite Forall_forall in Hsel. specialize (Hsel i Hin). lia.
Qed.

Lemma keep_from_remove_at {A} i : forall k sel (l : list A),
  Forall (fun j => j < k + i) sel ->
  keep_from k sel (remove_at i l) = keep_from k ((k + i) :: sel) l.
Proof.
  induction i as [| i IH]; intros k sel l Hsel.
  - rewrite Nat.add_0_r in *. destruct l as [| x rest]; simpl; [reflexivity |].
    rewrite Nat.eqb_refl. simpl.
    rewrite keep_from_all by exact Hsel.
    rewrite keep_from_all; [reflexivity |].
    constructor; [lia |].
    eapply Forall_impl; [| exact Hsel]. simpl. intros j Hj. lia.
  - destruct l as [| x rest]; simpl; [reflexivity |].
    replace (Nat.eqb k (k + S i)) with false
      by (symmetry; apply Nat.eqb_neq; lia).
    simpl.
    replace (k + S i) with (S k + i) by lia.
    rewrite IH by (eapply Forall_impl; [| exact Hsel]; simpl; intros j Hj; lia).
    reflexivity.
Qed.

Lemma keep_from_same_members {A} sel sel' : forall k (l : list A),
  (forall i, In i sel <-> In i sel') ->
  keep_from k sel l = keep_from k sel' l.
Proof.
  intros k l Hsame. revert k.
  induction l as [| x rest IH]; intros k; simpl; [reflexivity |].
  replace (existsb (Nat.eqb k) sel') with (existsb (Nat.eqb k) sel).
  - rewrite IH. reflexivity.
  - apply eq_true_iff_eq. rewrite !existsb_exists.
    split; intros (i & Hin & Heq); exists i; split; auto; apply Hsame; auto.
Qed.

Lemma remove_at_length {A} i (l : list A) :
  i < length l -> length (remove_at i l) = pred (length l).
Proof.
  revert i. induction l as [| x rest IH]; intros i Hi; simpl in *; [lia |].
  destruct i as [| i]; [reflexivity |].
  simpl. rewrite IH by lia. lia.
Qed.

Section ListEngine.

(** An engine whose strokes are a list [view], from which [removeStroke]
    takes the stroke at a position that exists. *)
Variable view : Engine -> list JsVal.
Hypothesis removeStroke_removes : forall i engine,
  i < length (view engine) ->
  exists engine',
    removeStroke i engine = (Normal tt, engine') /\
    view engine' = remove_at i (view engine).

Lemma forEach_remove_descending indices : forall engine,
  descending indices ->
  Forall (fun i => i < length (view engine)) indices ->
  exists engine',
    forEach_remove indices engine = (Normal tt, engine') /\
    view engine' = keep_from 0 indices (view engine).
Proof.
  induction indices as [| i rest IH]; intros engine Hsorted Hrange.
  - exists engine. split; [reflexivity |].
    rewrite keep_from_all by constructor. reflexivity.
  - apply StronglySorted_inv in Hsorted as [Hrest Hbelow].
    apply Forall_cons_iff in Hrange as [Hi Hrange].
    destruct (removeStroke_removes i engine Hi) as (engine1 & Hrm & Hview).
    destruct (IH engine1 Hrest) as (engine' & Hrun & Hkeep).
    { rewrite Hview, remove_at_length by exact Hi.
      eapply Forall_impl; [| exact Hbelow]. simpl. intros j Hj. lia. }
    exists engine'. simpl. rewrite Hrm. split; [exact Hrun |].
    rewrite Hkeep, Hview. apply (keep_from_remove_at i 0). exact Hbelow.
Qed.


End ListEngine.

End BridgeProperties.

(* ================================================================= *)
(** * The properties on concrete frames *)

Import Examples.

(** C1 on a [stroke:remove] sent to a relay with two open sessions. *)
Lemma C1_witness :
  JSON.parse remove_a
  = Some (Messages.message_obj (Messages.StrokeRemoveMessage "a"))
  /\ Relay.on_message JSON.parse remove_a two_sessions
     = (Normal tt,
        Relay.mkState [] []
          (map (Relay.deliver remove_a) (Relay.clients two_sessions))).
Proof.
  split; [vm_compute; reflexivity |].
  apply (proj1 (C1_only_add_and_chat_mutate JSON.parse remove_a
                  (Messages.message_obj (Messages.StrokeRemoveMessage "a"))
                  two_sessions ltac:(vm_compute; reflexivity))
           "stroke:remove").
  - simpl. auto.
  - reflexivity.
Defined.

(** A frame of type [cursor:move] parses, carries none of the eight tags,
    and is nevertheless relayed: the relay's state after it differs from
    the state before, and the frame is the last one sent to each session. *)
Lemma C2_counterexample :
  JSON.parse cursor_move = Some cursor_move_obj
  /\ forallb (fun tag => negb (Messages.has_type cursor_move_obj tag))
       Messages.message_types = true
  /\ snd (Relay.on_message JSON.parse cursor_move two_sessions) <> two_sessions
  /\ Forall (fun c => last (Relay.sent c) "" = cursor_move)
       (Relay.clients (snd (Relay.on_message JSON.parse cursor_move two_sessions))).
Proof.
  split; [vm_compute; reflexivity |].
  split; [vm_compute; reflexivity |].
  split.
  - vm_compute. discriminate.
  - vm_compute. repeat constructor.
Qed.

(** C2 on the same [cursor:move] frame. *)
Lemma C2_witness :
  JSON.parse cursor_move = Some cursor_move_obj
  /\ Relay.on_message JSON.parse cursor_move two_sessions
     = (Normal tt,
        Relay.mkState [] []
          (map (Relay.deliver cursor_move) (Relay.clients two_sessions))).
Proof.
  split; [vm_compute; reflexivity |].
  apply (C2_unrecognized_type_is_relayed JSON.parse cursor_move
           cursor_move_obj (JStr "cursor:move") two_sessions).
  - vm_compute. reflexivity.
  - reflexivity.
  - intros tag Hin. simpl in Hin.
    decompose [or] Hin; subst; try reflexivity; contradiction.
Defined.

(** C3 on a run with two connections, two [stroke:add], a [stroke:remove]
    and a [chat:message]. *)
Lemma C3_witness :
  Forall (fun d => Relay.recognized JSON.parse d = true) (Relay.frames session_log)
  /\ length (filter (Relay.is_stroke_add JSON.parse) (Relay.frames session_log)) = 2
  /\ exists st',
       run session_log Relay.init = (Normal tt, st') /\
       Relay.strokes st'
       = flat_map (Relay.added_stroke JSON.parse) (Relay.frames session_log) /\
       length (Relay.strokes st') = 2.
Proof.
  assert (Forall (fun d => Relay.recognized JSON.parse d = true)
            (Relay.frames session_log)) as Hall
      by (repeat constructor; vm_compute; reflexivity).
  assert (length (filter (Relay.is_stroke_add JSON.parse)
                    (Relay.frames session_log)) = 2) as HN
      by (vm_compute; reflexivity).
  split; [exact Hall |]. split; [exact HN |].
  exact (C3_board_is_the_adds_in_receipt_order JSON.parse JSON.stringify
           session_log 2 Hall HN).
Defined.

(** The stroke with [id] ["a"] delivered twice to the empty store: the
    second delivery changes the store, which then holds the stroke twice. *)
Lemma C5_counterexample :
  let once := Whiteboard.apply_stroke_add (fun tool => tool) stroke_a board0 in
  let twice := Whiteboard.apply_stroke_add (fun tool => tool) stroke_a once in
  Whiteboard.strokes once = [stroke_a]
  /\ Whiteboard.strokes twice = [stroke_a; stroke_a]
  /\ twice <> once
  /\ length (filter (fun s => String.eqb (Messages.id s) "a")
               (Whiteboard.strokes twice)) = 2.
Proof.
  simpl. repeat split; try reflexivity. discriminate.
Qed.

(** C6 on a [chat:message] from session 1 while session 1 is closing and
    session 2 is open. *)
Lemma C6_witness :
  Relay.recognized JSON.parse chat_hi = true
  /\ exists st',
       step (Relay.Inbound 1 chat_hi) one_closing = (Normal tt, st') /\
       Relay.clients st' = map (Relay.deliver chat_hi) (Relay.clients one_closing) /\
       (forall c, In c (Relay.clients one_closing) -> Relay.readyState c = OPEN ->
                  In (Relay.mkWebSocket (Relay.wsid c) OPEN (Relay.sent c ++ [chat_hi]))
                     (Relay.clients st')) /\
       (forall c, In c (Relay.clients one_closing) -> Relay.readyState c <> OPEN ->
                  In c (Relay.clients st')) /\
       (forall c, In c (Relay.clients one_closing) -> Relay.wsid c = 1 ->
                  Relay.readyState c = OPEN ->
                  exists c', In c' (Relay.clients st') /\ Relay.wsid c' = 1 /\
                             Relay.sent c' = Relay.sent c ++ [chat_hi]).
Proof.
  assert (Relay.recognized JSON.parse chat_hi = true) as Hrec
      by (vm_compute; reflexivity).
  split; [exact Hrec |].
  exact (C6_verbatim_fan_out_with_echo JSON.parse JSON.stringify 1 chat_hi
           one_closing Hrec).
Defined.

(** C7 on the frame [{not json]. *)
Lemma C7_witness :
  JSON.parse malformed = None
  /\ step (Relay.Inbound 2 malformed) two_sessions = (Normal tt, two_sessions).
Proof.
  assert (JSON.parse malformed = None) as Hbad by (vm_compute; reflexivity).
  split; [exact Hbad |].
  exact (C7_unparsable_frame_is_dropped JSON.parse JSON.stringify 2 malformed
           two_sessions Hbad).
Defined.

(** C10 on a socket that is still connecting, and on the same socket once
    it is open. *)
Lemma C10_witness :
  send (Messages.ChatMessage (Messages.mkChat "u1" "A" "hi")) UseWebSocket.connect
  = (Normal tt, UseWebSocket.connect)
  /\ send (Messages.ChatMessage (Messages.mkChat "u1" "A" "hi"))
       (UseWebSocket.opened UseWebSocket.connect)
     = (Normal tt, Some (UseWebSocket.mkWebSocket OPEN [chat_hi])).
Proof.
  split.
  - apply (proj1 (proj2 (C10_send_only_when_open JSON.stringify
                           (Messages.ChatMessage (Messages.mkChat "u1" "A" "hi"))
                           UseWebSocket.connect))).
    right. eexists. split; [reflexivity | discriminate].
  - apply (proj1 (C10_send_only_when_open JSON.stringify
                    (Messages.ChatMessage (Messages.mkChat "u1" "A" "hi"))
                    (UseWebSocket.opened UseWebSocket.connect))
             (UseWebSocket.mkWebSocket OPEN [])); reflexivity.
Defined.

(** A client that joins after [session_log] is sent a snapshot that reads
    back as the two strokes and the one chat entry, in order of receipt. *)
Example late_joiner_snapshot :
  let st := snd (run session_log Relay.init) in
  let st' := snd (step Relay.Connection st) in
  map (fun c => map JSON.parse (Relay.sent c)) (skipn 2 (Relay.clients st'))
  = [[ Some (Relay.syncMsg [Messages.stroke_obj stroke_a; Messages.stroke_obj stroke_b]);
       Some (Relay.chatSyncMsg [Messages.chat_obj (Messages.mkChat "u1" "A" "hi")]) ]].
Proof. vm_compute. reflexivity. Qed.

(** The listener's property reads are outside its [try]: a [stroke:add]
    without a [payload], or the JSON text [null], makes it throw before
    anything is stored or relayed. *)
Example unguarded_reads_throw :
  step (Relay.Inbound 1 add_without_payload) two_sessions
  = (Throw TypeError, two_sessions)
  /\ step (Relay.Inbound 1 json_null) two_sessions
     = (Throw TypeError, two_sessions).
Proof. split; vm_compute; reflexivity. Qed.

(* ================================================================= *)
(** * The further properties on concrete inputs *)

(** X1 on a [stroke:add] without a [payload]. *)
Lemma listener_throws_witness :
  JSON.parse add_without_payload = Some (JObj [("type", JStr "stroke:add")])
  /\ Relay.unreadable (JObj [("type", JStr "stroke:add")]) = true
  /\ Relay.on_message JSON.parse add_without_payload two_sessions
     = (Throw TypeError, two_sessions).
Proof.
  assert (JSON.parse add_without_payload
          = Some (JObj [("type", JStr "stroke:add")])) as Hp
      by (vm_compute; reflexivity).
  split; [exact Hp |]. split; [reflexivity |].
  apply (proj1 (proj2 (listener_throws_exactly_on_unreadable JSON.parse
                         add_without_payload _ two_sessions Hp))).
  reflexivity.
Defined.

(** X3 on a run that starts with two open sessions and contains a frame
    that is not JSON. *)
Lemma run_appends_witness :
  Forall (fun d => Relay.completes JSON.parse d = true) (Relay.frames inbound_log)
  /\ exists st',
       run inbound_log two_sessions = (Normal tt, st') /\
       Relay.strokes st'
       = Relay.strokes two_sessions
           ++ flat_map (Relay.added_stroke JSON.parse) (Relay.frames inbound_log) /\
       Relay.chatHistory st'
       = Relay.chatHistory two_sessions
           ++ flat_map (Relay.added_chat JSON.parse) (Relay.frames inbound_log).
Proof.
  assert (Forall (fun d => Relay.completes JSON.parse d = true)
            (Relay.frames inbound_log)) as Hall
      by (repeat constructor; vm_compute; reflexivity).
  split; [exact Hall |].
  exact (run_appends_strokes_and_chat JSON.parse JSON.stringify inbound_log
           two_sessions Hall).
Defined.

(** X4 on a run in which the one added stroke is afterwards "removed". *)
Lemma late_joiner_witness :
  Forall (fun d => Relay.completes JSON.parse d = true) (Relay.frames inbound_log)
  /\ flat_map (Relay.added_stroke JSON.parse) (Relay.frames inbound_log)
     = [Messages.stroke_obj stroke_a]
  /\ exists st,
       run inbound_log Relay.init = (Normal tt, st) /\
       step Relay.Connection st
       = (Normal tt,
          Relay.mkState (Relay.strokes st) (Relay.chatHistory st)
            (Relay.clients st ++
               [Relay.mkWebSocket (Relay.fresh (Relay.clients st)) OPEN
                  [ JSON.stringify
                      (Relay.syncMsg
                         (flat_map (Relay.added_stroke JSON.parse)
                            (Relay.frames inbound_log)));
                    JSON.stringify
                      (Relay.chatSyncMsg
                         (flat_map (Relay.added_chat JSON.parse)
                            (Relay.frames inbound_log))) ]])).
Proof.
  assert (Forall (fun d => Relay.completes JSON.parse d = true)
            (Relay.frames inbound_log)) as Hall
      by (repeat constructor; vm_compute; reflexivity).
  split; [exact Hall |]. split; [vm_compute; reflexivity |].
  exact (late_joiner_gets_every_added_stroke JSON.parse JSON.stringify
           inbound_log Hall).
Defined.

(** X5 on the same run, with session 1 closing and session 2 open. *)
Lemma broadcast_order_witness :
  Relay.relayed_frames JSON.parse inbound_log = [add_a; chat_hi; remove_a]
  /\ exists st',
       run inbound_log one_closing = (Normal tt, st') /\
       Relay.clients st'
       = map (Relay.deliver_all (Relay.relayed_frames JSON.parse inbound_log))
           (Relay.clients one_closing).
Proof.
  split; [vm_compute; reflexivity |].
  apply (broadcast_order_is_arrival_order JSON.parse JSON.stringify
           inbound_log one_closing).
  - repeat constructor.
  - repeat constructor; vm_compute; reflexivity.
Defined.

(** X6 on a [stroke:add] with an empty payload. *)
Lemma missing_properties_witness :
  Relay.on_message JSON.parse add_without_stroke two_sessions
  = (Normal tt,
     Relay.mkState [JUndefined] []
       (map (Relay.deliver add_without_stroke) (Relay.clients two_sessions))).
Proof.
  apply (proj1 (missing_properties_store_undefined JSON.parse add_without_stroke
                  [("type", JStr "stroke:add"); ("payload", JObj [])]
                  two_sessions ltac:(vm_compute; reflexivity)) []);
    reflexivity.
Defined.

(** X7 on the first session across a [chat:message]. *)
Lemma sent_frames_witness :
  exists c' more,
    In c' (Relay.clients (snd (step (Relay.Inbound 2 chat_hi) two_sessions)))
    /\ Relay.wsid c' = 1
    /\ Relay.sent c'
       = [ JSON.stringify (Relay.syncMsg []); JSON.stringify (Relay.chatSyncMsg []) ]
           ++ more.
Proof.
  destruct (sent_frames_are_kept JSON.parse JSON.stringify
              (Relay.Inbound 2 chat_hi) two_sessions
              (Relay.mkWebSocket 1 OPEN
                 [ JSON.stringify (Relay.syncMsg []);
                   JSON.stringify (Relay.chatSyncMsg []) ])
              ltac:(vm_compute; left; reflexivity))
    as [Hclosed | Hkept].
  - discriminate Hclosed.
  - exact Hkept.
Defined.

(** X8 on a [board:sync] sent by a client. *)
Lemma forged_sync_witness :
  JSON.parse forged_sync
  = Some (Messages.message_obj (Messages.BoardSyncMessage [] []))
  /\ Relay.on_message JSON.parse forged_sync two_sessions
     = (Normal tt,
        Relay.mkState [] []
          (map (Relay.deliver forged_sync) (Relay.clients two_sessions))).
Proof.
  assert (JSON.parse forged_sync
          = Some (Messages.message_obj (Messages.BoardSyncMessage [] []))) as Hp
      by (vm_compute; reflexivity).
  split; [exact Hp |].
  apply (snapshot_frames_from_clients_are_relayed JSON.parse forged_sync _
           "board:sync" two_sessions Hp).
  - simpl. auto.
  - reflexivity.
Defined.


(** X10 on a [SET_STROKES]. *)
Lemma reducer_frame_witness :
  (exists payload,
      @Whiteboard.SET_STROKES Messages.Stroke string [stroke_a]
      = Whiteboard.SET_STROKES payload)
  \/ @Whiteboard.SET_STROKES Messages.Stroke string [stroke_a]
     = Whiteboard.CLEAR_CANVAS Messages.Stroke string.
Proof.
  apply (proj1 (reducer_keeps_strokes_and_selection Messages.Stroke string
                  (fun tool => tool) board0 (Whiteboard.SET_STROKES [stroke_a]))).
  simpl. discriminate.
Defined.

(** X11 on a store that knows the tools ["stroke"] and ["eraser"]. *)
Lemma set_active_tool_witness :
  Whiteboard.activeTool
    (Whiteboard.whiteboardReducer Messages.Stroke string (fun tool => tool)
       board_with_tools (Whiteboard.SET_ACTIVE_TOOL Messages.Stroke string "eraser"))
  = "eraser".
Proof.
  apply (proj1 (set_active_tool_finds_or_falls_back Messages.Stroke string
                  (fun tool => tool) board_with_tools "eraser")).
  exists "eraser". split; [simpl; auto | reflexivity].
Defined.

(** X13 on the engine stroke without a colour and with thickness 0. *)
Lemma conversion_witness :
  exists s,
    Bridge.wasmStrokeToReact round255
      (JObj [("points", JArr []); ("thickness", JNum zero)]) = Normal s
    /\ Bridge.color s = "rgb(0, 0, 0)"
    /\ Bridge.thickness s = JNum one.
Proof.
  destruct (wasm_stroke_conversion_defaults round255
              (JObj [("points", JArr []); ("thickness", JNum zero)]))
    as (s & Hs & _ & _ & _ & Hcolor & Hthick).
  exists s. split; [exact Hs |]. split.
  - apply (Hcolor JUndefined); reflexivity.
  - apply (Hthick (JNum zero)); reflexivity.
Defined.

(** X14 on the list engine holding [engine_strokes]. *)
Lemma sync_witness :
  exists rs,
    Forall2 (fun w r => Bridge.wasmStrokeToReact round255 w = Normal r)
      engine_strokes rs
    /\ Bridge.syncStrokesFromWasm round255 (list JsVal) list_getStrokes string
         (fun tool => tool) true engine_strokes bridge_board
       = Whiteboard.setAllStrokes (fun tool => tool) rs bridge_board.
Proof.
  destruct (proj2 (proj2 (sync_overwrites_with_engine_strokes round255
                            (list JsVal) list_getStrokes string (fun tool => tool)
                            true engine_strokes bridge_board))
              engine_strokes eq_refl eq_refl) as (rs & Hall & Hsync).
  exists rs. split; [exact Hall |]. rewrite Hsync. reflexivity.
Defined.

(** X15 on a snapshot put into the store while the engine is empty. *)
Lemma local_update_witness :
  exists rs,
    Forall2 (fun w r => Bridge.wasmStrokeToReact round255 w = Normal r) [] rs
    /\ Whiteboard.strokes
         (Bridge.stroke_update_effect round255 (list JsVal) list_getStrokes string
            (fun tool => tool) true []
            (Bridge.triggerStrokeUpdate string (fun tool => tool)
               (Whiteboard.setAllStrokes (fun tool => tool)
                  [Bridge.mkStroke (JArr []) "rgb(1, 2, 3)" (JNum one)]
                  bridge_board)))
       = rs.
Proof.
  apply (local_update_discards_synced_strokes round255 (list JsVal)
           list_getStrokes string (fun tool => tool) [] [] bridge_board).
  - reflexivity.
  - simpl. lia.
Defined.

